(** * Daily job search: a shallow embedding of [fetch_jobs.py]

    The script queries three job sources, merges and deduplicates the
    postings, renders an HTML table and mails it through SendGrid.  This
    file embeds its functions and proves the properties stated for them.

    Modelling conventions.
    - A Python [str] is a [string]; its characters are read as ASCII text.
      [str.lower] therefore maps ['A'..'Z'] to ['a'..'z'] and [str.strip]
      removes the ASCII white space of [str.isspace].  The two literals of
      the script that hold an em dash keep it in its UTF-8 bytes.
    - A job is the dict the fetchers build: six keys, each read with
      [dict.get], so a field is an [option string].  [None] is a missing
      key; for [link], which [fetch_remotive] copies from the listing as it
      is, also a key that holds [None].
    - Of the libraries the script calls, [urljoin] is a parameter, and
      [raise_for_status] raises on the status codes from 400 to 599, as the
      requests library documents it.
    - The outside world (the three HTTP answers, the SendGrid answer, the
      process environment) is an explicit argument; what the script does to
      it (requests, prints, sleeps, mail) is logged as a list of events.
    - An exception is the left injection of the result of a computation. *)

From Stdlib Require Import ZArith Ascii.
From Stdlib Require String.
From stdpp Require Import gmap strings list.

#[local] Set Warnings "-clear-no-such-hyp".

(** ** Python strings *)

Module Str.

Definition code (c : ascii) : N := N_of_ascii c.

(** [str.lower] on one character. *)
Definition lower_char (c : ascii) : ascii :=
  if ((65 <=? code c) && (code c <=? 90))%N
  then ascii_of_N (code c + 32) else c.

(** [str.lower]. *)
Fixpoint lower (s : string) : string :=
  match s with
  | EmptyString => EmptyString
  | String c t => String (lower_char c) (lower t)
  end.

(** [str.isspace] on one character: TAB, LF, VT, FF, CR, FS, GS, RS, US
    and the space. *)
Definition is_space (c : ascii) : bool :=
  (((9 <=? code c) && (code c <=? 13))
   || ((28 <=? code c) && (code c <=? 32)))%N.

(** Truth value of a string: only the empty string is false. *)
Definition truthy (s : string) : bool :=
  match s with EmptyString => false | String _ _ => true end.

Fixpoint lstrip (s : string) : string :=
  match s with
  | EmptyString => EmptyString
  | String c t => if is_space c then lstrip t else s
  end.

Fixpoint rstrip (s : string) : string :=
  match s with
  | EmptyString => EmptyString
  | String c t =>
      let t' := rstrip t in
      if negb (truthy t') && is_space c then EmptyString else String c t'
  end.

(** [str.strip] with no argument. *)
Definition strip (s : string) : string := rstrip (lstrip s).

(** [str.startswith]. *)
Definition startswith (s p : string) : bool := String.prefix p s.

(** [needle in hay]. *)
Fixpoint contains (needle hay : string) : bool :=
  if String.prefix needle hay then true
  else match hay with
       | EmptyString => false
       | String _ t => contains needle t
       end.

(** [len]. *)
Definition len (s : string) : Z := Z.of_nat (String.length s).

(** [a or b] on strings. *)
Definition or_else (a b : string) : string := if truthy a then a else b.

(** The declarative reading of [needle in hay]. *)
Definition Substring (needle hay : string) : Prop :=
  ∃ pre post, hay = pre +:+ needle +:+ post.

(** Number of positions of [hay] at which [needle] starts. *)
Fixpoint count (needle hay : string) : nat :=
  (if String.prefix needle hay then 1 else 0) +
  match hay with
  | EmptyString => 0
  | String _ t => count needle t
  end.

End Str.

(** ** Jobs *)

(** The dict a fetcher appends.  A field is [None] when [dict.get] returns
    [None]: the key is missing or, for [link], holds [None]. *)
Record job := Job {
  company : option string;
  title : option string;
  location : option string;
  link : option string;
  keywords : option string;
  skills : option string
}.

(** [j.get(k, d)] *)
Definition get_or (v : option string) (d : string) : string := default d v.

(** [j.get(k) or d] *)
Definition get_or_else (v : option string) (d : string) : string :=
  Str.or_else (default "" v) d.

(** ** dedupe_jobs *)

(** The key computed in the loop of [dedupe_jobs]:
    [(j.get("link") or "").strip() or (j.get("company","") + "|" + j.get("title",""))]. *)
Definition job_key (j : job) : string :=
  Str.or_else (Str.strip (get_or_else (link j) ""))
              (get_or (company j) "" +:+ "|" +:+ get_or (title j) "").

(** The loop of [dedupe_jobs], with its two locals [seen] and [out]. *)
Fixpoint dedupe_loop (seen : gset string) (out : list job) (jobs : list job)
  : list job :=
  match jobs with
  | [] => out
  | j :: rest =>
      let key := job_key j in
      if decide (key ∈ seen) then dedupe_loop seen out rest
      else dedupe_loop ({[key]} ∪ seen) (out ++ [j]) rest
  end.

Definition dedupe_jobs (jobs : list job) : list job := dedupe_loop ∅ [] jobs.

(** The keys of a list of jobs, as the set [seen] holds them. *)
Definition keys (jobs : list job) : gset string :=
  list_to_set (job_key <$> jobs).

(** What the loop appends to [out] when it starts from [seen]. *)
Fixpoint dedupe_from (seen : gset string) (jobs : list job) : list job :=
  match jobs with
  | [] => []
  | j :: rest =>
      if decide (job_key j ∈ seen) then dedupe_from seen rest
      else j :: dedupe_from ({[job_key j]} ∪ seen) rest
  end.

(** ** build_html_table *)

(** What an f-string writes for [j.get(k)]: the string, or [None]. *)
Definition fmt (v : option string) : string := default "None" v.

(** The row appended to [rows] for one job. *)
Definition html_row (j : job) : string :=
  "<tr>"
  +:+ "<td>" +:+ fmt (company j) +:+ "</td>"
  +:+ "<td>" +:+ fmt (title j) +:+ "</td>"
  +:+ "<td>" +:+ fmt (location j) +:+ "</td>"
  +:+ "<td><a href='" +:+ fmt (link j) +:+ "'>Apply</a></td>"
  +:+ "<td>" +:+ fmt (keywords j) +:+ "</td>"
  +:+ "<td>" +:+ fmt (skills j) +:+ "</td>"
  +:+ "</tr>".

(** The loop [for j in jobs: rows += ...]. *)
Fixpoint html_rows (rows : string) (jobs : list job) : string :=
  match jobs with
  | [] => rows
  | j :: rest => html_rows (rows +:+ html_row j) rest
  end.

Definition table_head : string :=
  "<h2>Daily Remote Data Analyst Jobs — Consolidated</h2>"
  +:+ "<p>Source: Remotive API + TopStartups + Wellfound (best-effort scraping)</p>"
  +:+ "<table border='1' cellpadding='6' style='border-collapse:collapse;'>"
  +:+ "<thead><tr><th>Company</th><th>Title</th><th>Location</th><th>Link</th><th>Keywords</th><th>Skills</th></tr></thead>"
  +:+ "<tbody>".

Definition table_foot : string := "</tbody></table>".

Definition build_html_table (jobs : list job) : string :=
  let rows := html_rows "" jobs in
  table_head +:+ rows +:+ table_foot.

(** ** Effects: an event log and exceptions *)

Inductive exn :=
| ConnectionError            (* [requests.get] could not complete *)
| HTTPError (status : Z)     (* [raise_for_status] *)
| ValueError                 (* a body that does not parse *)
| AttributeError             (* [.get] or [.lower] on a value without it *)
| TypeError                  (* iterating a value that is not iterable *)
| RuntimeError (msg : string)
| SendGridError.             (* [sg.send] failed *)

Inductive event :=
| ev_get (url : string) (params : list (string * string)) (timeout : Z)
    (headers : list (string * string))
| ev_sleep (seconds : Z)
| ev_print (line : string)
| ev_print_error (label : string) (e : exn)
| ev_print_status (label : string) (status_code : Z)
| ev_mail (from_email to_emails subject html_content : string)
| ev_send (api_key : string).

(** A computation logs events and either raises or returns. *)
Definition M (A : Type) : Type := list event * (exn + A).

Definition ret {A} (a : A) : M A := ([], inr a).
Definition raise {A} (e : exn) : M A := ([], inl e).
Definition emit (ev : event) : M unit := ([ev], inr tt).
Definition bind {A B} (m : M A) (k : A → M B) : M B :=
  match m.2 with
  | inl e => (m.1, inl e)
  | inr a => (m.1 ++ (k a).1, (k a).2)
  end.

(** [try: body except Exception as e: handler(e)] *)
Definition try_except {A} (body : M A) (handler : exn → M A) : M A :=
  match body.2 with
  | inl e => (body.1 ++ (handler e).1, (handler e).2)
  | inr a => body
  end.

(** An outcome decided by the outside world. *)
Definition lift {A} (r : exn + A) : M A := ([], r).

Declare Scope py_scope.
Delimit Scope py_scope with py.
Notation "x <- m ;; k" := (bind m (fun x => k))
  (at level 100, m at next level, right associativity) : py_scope.
Notation "m ;;; k" := (bind m (fun _ => k))
  (at level 100, right associativity) : py_scope.
Local Open Scope py_scope.

Definition events {A} (m : M A) : list event := m.1.
Definition outcome {A} (m : M A) : exn + A := m.2.

(** ** HTTP *)

(** What one [requests.get] meets: an exception, or a response with its
    status code and what the caller reads from its body. *)
Inductive http_result (B : Type) :=
| request_raises (e : exn)
| http_response (status_code : Z) (body : B).
Arguments request_raises {B} e.
Arguments http_response {B} status_code body.

Definition USER_AGENT : string :=
  "Mozilla/5.0 (compatible; JobFetcher/1.0; +https://github.com/)".
Definition HEADERS : list (string * string) := [("User-Agent", USER_AGENT)].

(** [requests.get(url, params=params, timeout=15, headers=HEADERS)] *)
Definition requests_get {B} (url : string) (params : list (string * string))
    (r : http_result B) : M (Z * B) :=
  emit (ev_get url params 15 HEADERS);;;
  match r with
  | request_raises e => raise e
  | http_response status_code body => ret (status_code, body)
  end.

(** [Response.raise_for_status] of the requests library: client and server
    error codes raise. *)
Definition is_error_status (status_code : Z) : bool :=
  ((400 <=? status_code) && (status_code <? 600))%Z.

Definition raise_for_status (status_code : Z) : M unit :=
  if is_error_status status_code
  then raise (HTTPError status_code) else ret tt.

(** A request fails when [requests.get] raises, when the status is an
    error status, or when reading the body raises. *)
Definition response_fails {B} (r : http_result (exn + B)) : bool :=
  match r with
  | request_raises _ => true
  | http_response status_code (inl _) => true
  | http_response status_code (inr _) => is_error_status status_code
  end.

(** ** fetch_remotive *)

(** One element met while iterating [resp.json().get("jobs", [])]: an
    object with a string or no title, of which the loop reads four keys
    ([None]: the key is missing; for the last three also: it is null), or a
    value the loop body cannot read ([j.get] or [title.lower()] raises
    [e]). *)
Inductive listing :=
| listing_invalid (e : exn)
| listing_object (l_title : option string)
    (company_name candidate_required_location url : option string).

Definition is_invalid (l : listing) : bool :=
  match l with listing_invalid _ => true | listing_object _ _ _ _ => false end.

(** The title rule in the words of the specification: the lowered text
    contains "data analyst", or contains both "data" and "analyst". *)
Definition data_analyst_rule (txt : string) : bool :=
  Str.contains "data analyst" (Str.lower txt)
  || (Str.contains "data" (Str.lower txt)
      && Str.contains "analyst" (Str.lower txt)).

(** The test of line 32, on the title as read:
    ["data analyst" in t or "data" in t and "analyst" in t] with
    [t = title.lower()]. *)
Definition remotive_match (title : string) : bool :=
  Str.contains "data analyst" (Str.lower title)
  || Str.contains "data" (Str.lower title)
     && Str.contains "analyst" (Str.lower title).

Definition remotive_job (title : string)
    (company_name candidate_required_location url : option string) : job :=
  {| company := Some (get_or_else company_name "-");
     title := Some title;
     location := Some (get_or_else candidate_required_location "Remote");
     link := url;
     keywords := Some "analysis; reporting; dashboards; metrics; data";
     skills := Some "Python; SQL; Excel; BI tools; statistics" |}.

(** [for j in data: ...], with the local [jobs]. *)
Fixpoint remotive_loop (jobs : list job) (data : list listing)
  : M (list job) :=
  match data with
  | [] => ret jobs
  | listing_invalid e :: _ => raise e
  | listing_object t c l u :: rest =>
      let title := get_or t "" in
      if remotive_match title
      then remotive_loop (jobs ++ [remotive_job title c l u]) rest
      else remotive_loop jobs rest
  end.

(** What one element contributes when the loop gets past it. *)
Definition listing_job (l : listing) : option job :=
  match l with
  | listing_invalid _ => None
  | listing_object t c l u =>
      if remotive_match (get_or t "") then Some (remotive_job (get_or t "") c l u)
      else None
  end.

(** The body of a Remotive response is what
    [resp.json().get("jobs", [])] gives: an exception, or the elements. *)
Definition remotive_response : Type := http_result (exn + list listing).

(** A Remotive request fails as any request does, and also when an element
    of the list cannot be read. *)
Definition remotive_fails (r : remotive_response) : bool :=
  response_fails r
  || match r with
     | http_response _ (inr data) => existsb is_invalid data
     | _ => false
     end.

Definition fetch_remotive (r : remotive_response) : M (list job) :=
  let endpoint := "https://remotive.com/api/remote-jobs" in
  let params := [("search", "data analyst")] in
  try_except
    (resp <- requests_get endpoint params r;;
     raise_for_status resp.1;;;
     data <- lift resp.2;;
     remotive_loop [] data)
    (fun e => emit (ev_print_error "Remotive error:" e);;; ret []).

(** ** The two scrapers *)

(** One element of [soup.select("a[href]")]: its [get_text(" ", strip=True)]
    and its [get("href")]. *)
Record anchor := Anchor { a_text : string; a_href : string }.

(** The body of a page is what [BeautifulSoup(resp.text, "html.parser")]
    and the selection give: an exception, or the anchors in document
    order. *)
Definition page_response : Type := http_result (exn + list anchor).

(** The test of line 88 of [fetch_wellfound]. *)
Definition wellfound_match (txt : string) : bool :=
  Str.contains "data analyst" (Str.lower txt)
  || (Str.contains "data" (Str.lower txt)
      && Str.contains "analyst" (Str.lower txt)).

(** The test of line 59 of [fetch_topstartups]. *)
Definition topstartups_match (txt : string) : bool :=
  Str.contains "analyst" (Str.lower txt) && (Str.len txt <? 200)%Z.

Section Scrapers.

(** [urllib.parse.urljoin], a function of the Python library. *)
Variable urljoin : string → string → string.

(** [href if href.startswith("http") else urljoin(base, href)] *)
Definition full_link (base href : string) : string :=
  if Str.startswith href "http" then href else urljoin base href.

Definition topstartups_job (txt full : string) : job :=
  {| company := Some "-";
     title := Some txt;
     location := Some "Remote";
     link := Some full;
     keywords := Some "data; metrics; dashboards; insights; reporting";
     skills := Some "SQL; Python; visualization; data pipelines; statistics" |}.

Definition wellfound_job (txt full : string) : job :=
  {| company := Some "-";
     title := Some txt;
     location := Some "Remote";
     link := Some full;
     keywords := Some "data; metrics; reporting; dashboards; insights";
     skills := Some "SQL; Python; Looker/Tableau; Excel; stats" |}.

(** The anchors that get past both tests of a loop body, and the job each
    one yields. *)
Definition topstartups_accepts (a : anchor) : bool :=
  negb (negb (Str.truthy (a_href a)) || negb (Str.truthy (a_text a)))
  && topstartups_match (a_text a).

Definition wellfound_accepts (a : anchor) : bool :=
  negb (negb (Str.truthy (a_href a)) || negb (Str.truthy (a_text a)))
  && wellfound_match (a_text a).

Definition topstartups_emit (a : anchor) : job :=
  topstartups_job (a_text a) (full_link "https://topstartups.io" (a_href a)).

Definition wellfound_emit (base : string) (a : anchor) : job :=
  wellfound_job (a_text a) (full_link base (a_href a)).

(** [for a in soup.select("a[href]"): ...] of [fetch_topstartups]. *)
Fixpoint topstartups_loop (jobs : list job) (anchors : list anchor)
  : list job :=
  match anchors with
  | [] => jobs
  | a :: rest =>
      let txt := a_text a in
      let href := a_href a in
      if negb (Str.truthy href) || negb (Str.truthy txt)
      then topstartups_loop jobs rest
      else if topstartups_match txt
      then
        let full := full_link "https://topstartups.io" href in
        topstartups_loop (jobs ++ [topstartups_job txt full]) rest
      else topstartups_loop jobs rest
  end.

Definition fetch_topstartups (r : page_response) : M (list job) :=
  let url := "https://topstartups.io/jobs/?role=Data+Analyst" in
  try_except
    (resp <- requests_get url [] r;;
     raise_for_status resp.1;;;
     soup <- lift resp.2;;
     ret (topstartups_loop [] soup))
    (fun e => emit (ev_print_error "TopStartups error:" e);;; ret []).

(** [for a in soup.select("a[href]"): ...] of [fetch_wellfound]. *)
Fixpoint wellfound_loop (base : string) (jobs : list job)
    (anchors : list anchor) : list job :=
  match anchors with
  | [] => jobs
  | a :: rest =>
      let txt := a_text a in
      let href := a_href a in
      if negb (Str.truthy href) || negb (Str.truthy txt)
      then wellfound_loop base jobs rest
      else if wellfound_match txt
      then
        let full := full_link base href in
        wellfound_loop base (jobs ++ [wellfound_job txt full]) rest
      else wellfound_loop base jobs rest
  end.

Definition fetch_wellfound (r : page_response) : M (list job) :=
  let base := "https://wellfound.com" in
  let url := base +:+ "/role/r/data-analyst" in
  try_except
    (resp <- requests_get url [] r;;
     raise_for_status resp.1;;;
     soup <- lift resp.2;;
     ret (wellfound_loop base [] soup))
    (fun e =>
       emit (ev_print_error "Wellfound error (page may be JS-driven):" e);;;
       ret []).

End Scrapers.

(** ** send_email *)

(** The three module-level settings. *)
Record config := Config {
  SENDGRID_API_KEY : option string;
  TO_EMAIL : string;
  FROM_EMAIL : string
}.

(** Lines 15 to 17: the settings as read from the environment. *)
Definition load_config (environ : gmap string string) : config :=
  let to_email := default "Tanko8668@gmail.com" (environ !! "TO_EMAIL") in
  {| SENDGRID_API_KEY := environ !! "SENDGRID_API_KEY";
     TO_EMAIL := to_email;
     FROM_EMAIL := default to_email (environ !! "FROM_EMAIL") |}.

Definition no_key_error : exn :=
  RuntimeError "SENDGRID_API_KEY not set in environment".

(** [sendgrid] is what [sg.send(message)] meets: an exception or the
    status code of the response. *)
Definition send_email (cfg : config) (sendgrid : exn + Z)
    (html_body : string) : M unit :=
  match SENDGRID_API_KEY cfg with
  | Some key =>
      if Str.truthy key then
        emit (ev_mail (FROM_EMAIL cfg) (TO_EMAIL cfg)
                      "Daily Remote Data Analyst Jobs" html_body);;;
        emit (ev_send key);;;
        status_code <- lift sendgrid;;
        emit (ev_print_status "Email sent, status:" status_code)
      else raise no_key_error
  | None => raise no_key_error
  end.

Record world := World {
  remotive : remotive_response;
  topstartups : page_response;
  wellfound : page_response;
  sendgrid : exn + Z
}.

(** ** main *)

Definition no_jobs_html : string :=
  "<p>No remote Data Analyst jobs found today.</p>".

(** Lines 160 to 165 of [main]: the mail for the deduplicated jobs. *)
Definition report (cfg : config) (sendgrid : exn + Z) (jobs : list job)
  : M unit :=
  match jobs with
  | [] =>
      emit (ev_print "No jobs found — sending short status email.");;;
      send_email cfg sendgrid no_jobs_html
  | _ :: _ =>
      let html := build_html_table jobs in
      send_email cfg sendgrid html
  end.

Section Main.

Variable urljoin : string → string → string.

(** Lines 152 to 158 of [main]: the three fetches and the two sleeps. *)
Definition collect (w : world) : M (list job) :=
  let all_jobs := [] in
  r1 <- fetch_remotive (remotive w);;
  let all_jobs := all_jobs ++ r1 in
  emit (ev_sleep 1);;;
  r2 <- fetch_topstartups urljoin (topstartups w);;
  let all_jobs := all_jobs ++ r2 in
  emit (ev_sleep 1);;;
  r3 <- fetch_wellfound urljoin (wellfound w);;
  let all_jobs := all_jobs ++ r3 in
  ret all_jobs.

Definition main (cfg : config) (w : world) : M unit :=
  all_jobs <- collect w;;
  let jobs := dedupe_jobs all_jobs in
  report cfg (sendgrid w) jobs.

End Main.

(** ** Reading the log *)

(** The HTML bodies of the mails built during a run. *)
Definition mailed {A} (m : M A) : list string :=
  omap (fun ev => match ev with
                  | ev_mail _ _ _ html => Some html
                  | _ => None
                  end) (events m).

(** The events of [send_email] past its first test: building the message
    and the call to SendGrid. *)
Definition is_delivery (ev : event) : bool :=
  match ev with
  | ev_mail _ _ _ _ | ev_send _ => true
  | _ => false
  end.

(** A computation that neither builds a mail nor calls SendGrid. *)
Definition quiet {A} (m : M A) : bool :=
  forallb (fun ev => negb (is_delivery ev)) (events m).

(** The requests and the waits of a run, in the order they happen. *)
Definition is_paced (ev : event) : bool :=
  match ev with
  | ev_get _ _ _ _ | ev_sleep _ => true
  | _ => false
  end.

Definition schedule {A} (m : M A) : list event :=
  List.filter is_paced (events m).

(** The exception the try body of a fetcher raises, if any: the one of the
    request, else the one of the status check, else the one of reading the
    body. *)
Definition response_error {B} (r : http_result (exn + B)) : option exn :=
  match r with
  | request_raises e => Some e
  | http_response status_code body =>
      if is_error_status status_code then Some (HTTPError status_code)
      else match body with
           | inl e => Some e
           | inr _ => None
           end
  end.

(** The exception of the first element the loop of [fetch_remotive] cannot
    read. *)
Fixpoint first_invalid (data : list listing) : option exn :=
  match data with
  | [] => None
  | listing_invalid e :: _ => Some e
  | listing_object _ _ _ _ :: rest => first_invalid rest
  end.

(** ** Shapes of strings *)

(** A string of white space only. *)
Fixpoint is_blank (s : string) : bool :=
  match s with
  | EmptyString => true
  | String c t => Str.is_space c && is_blank t
  end.

(** A string without the character that opens a tag. *)
Fixpoint no_markup (s : string) : bool :=
  match s with
  | EmptyString => true
  | String c t => negb (Ascii.eqb c "<") && no_markup t
  end.

(** A job whose six fields, as the table writes them, open no tag. *)
Definition plain_job (j : job) : bool :=
  no_markup (fmt (company j)) && no_markup (fmt (title j))
  && no_markup (fmt (location j)) && no_markup (fmt (link j))
  && no_markup (fmt (keywords j)) && no_markup (fmt (skills j)).

(** ** Sample data *)

(** Number of table rows that open with a data cell: the rows of the body,
    as long as no field holds markup of its own. *)
Definition body_rows (html : string) : nat := Str.count "<tr><td>" html.

(** A stand-in for [urljoin] on paths: the base followed by the path. *)
Definition demo_urljoin (base href : string) : string := base +:+ href.

Definition demo_world : world :=
  {| remotive :=
       http_response 200
         (inr [listing_object (Some "Senior Data Analyst") (Some "Acme")
                 None (Some "https://x/1");
               listing_object (Some "Data Analyst II") (Some "Bolt")
                 (Some "EU") (Some "https://x/2")]);
     topstartups := request_raises ConnectionError;
     wellfound :=
       http_response 200 (inr [Anchor "Data Analyst" "https://x/1"]);
     sendgrid := inr 202%Z |}.

Definition demo_config : config :=
  load_config {["SENDGRID_API_KEY" := "SG.key"]}.

Definition acme_job : job :=
  {| company := Some "Acme";
     title := Some "Data Analyst";
     location := Some "Remote";
     link := Some "https://x/1";
     keywords := Some "k";
     skills := Some "s" |}.

(** * Properties *)

(** ** Strings *)

#[local] Arguments String.append !_ _ / : simpl nomatch.

Module StrFacts.
Import Str.

Lemma app_assoc (a b c : string) : (a +:+ b) +:+ c = a +:+ b +:+ c.
Proof. induction a as [|x a IH]; simpl; [done | by rewrite IH]. Qed.

Lemma app_nil_r (a : string) : a +:+ "" = a.
Proof. induction a as [|x a IH]; simpl; [done | by rewrite IH]. Qed.

Lemma prefix_nil (s : string) : String.prefix "" s = true.
Proof. by destruct s. Qed.

Lemma prefix_app (p s : string) :
  String.prefix p s = true ↔ ∃ t, s = p +:+ t.
Proof.
  revert s. induction p as [|x p IH]; intros s.
  - rewrite prefix_nil. split; [intros _; by exists s | done].
  - destruct s as [|y s]; simpl.
    + split; [done | intros [t Ht]; discriminate].
    + destruct (ascii_dec x y) as [->|Hxy].
      * rewrite IH. split; intros [t Ht]; exists t; simpl in *; congruence.
      * split; [done | intros [t Ht]; simpl in Ht; congruence].
Qed.

Lemma contains_unfold (n h : string) :
  contains n h =
    if String.prefix n h then true
    else match h with
         | EmptyString => false
         | String _ t => contains n t
         end.
Proof. by destruct h. Qed.

(** [contains] decides [Substring]. *)
Lemma contains_spec (n h : string) : contains n h = true ↔ Substring n h.
Proof.
  split.
  - induction h as [|c h IH]; rewrite contains_unfold;
      destruct (String.prefix n _) eqn:Hp.
    + apply prefix_app in Hp as [t ->]. intros _. by exists "", t.
    + done.
    + apply prefix_app in Hp as [t Ht]. intros _. by exists "", t.
    + intros [pre [post ->]]%IH. by exists (String c pre), post.
  - intros [pre [post ->]]. induction pre as [|c pre IH].
    + change ("" +:+ n +:+ post) with (n +:+ post).
      rewrite contains_unfold.
      by rewrite (proj2 (prefix_app n (n +:+ post))); [|exists post].
    + change (String c pre +:+ n +:+ post)
        with (String c (pre +:+ n +:+ post)).
      rewrite contains_unfold, IH. by destruct (String.prefix _ _).
Qed.

Lemma contains_false (n h : string) : contains n h = false ↔ ¬ Substring n h.
Proof.
  rewrite <- contains_spec. by destruct (contains n h).
Qed.

(** A string that contains [a +:+ b] contains [a] and contains [b]. *)
Lemma substring_app_l (a b h : string) :
  Substring (a +:+ b) h → Substring a h.
Proof.
  intros [pre [post ->]]. exists pre, (b +:+ post). by rewrite app_assoc.
Qed.

Lemma substring_app_r (a b h : string) :
  Substring (a +:+ b) h → Substring b h.
Proof.
  intros [pre [post ->]]. exists (pre +:+ a), post.
  by rewrite !app_assoc.
Qed.

Lemma lower_char_idemp (c : ascii) : lower_char (lower_char c) = lower_char c.
Proof.
  destruct c as [[] [] [] [] [] [] [] []]; reflexivity.
Qed.

Lemma lower_idemp (s : string) : lower (lower s) = lower s.
Proof.
  induction s as [|c s IH]; simpl; [done|].
  by rewrite lower_char_idemp, IH.
Qed.

Lemma lower_app (a b : string) : lower (a +:+ b) = lower a +:+ lower b.
Proof. induction a as [|c a IH]; simpl; [done | by rewrite IH]. Qed.

Lemma length_lower (s : string) : String.length (lower s) = String.length s.
Proof. induction s as [|c s IH]; simpl; [done | by rewrite IH]. Qed.

Lemma truthy_false (s : string) : truthy s = false ↔ s = "".
Proof. by destruct s. Qed.

Lemma truthy_true (s : string) : truthy s = true ↔ s ≠ "".
Proof. by destruct s. Qed.

End StrFacts.

(** ** dedupe_jobs *)

Module Dedupe.

Lemma loop_from (seen : gset string) (out jobs : list job) :
  dedupe_loop seen out jobs = out ++ dedupe_from seen jobs.
Proof.
  revert seen out. induction jobs as [|j rest IH]; intros seen out; simpl.
  - by rewrite app_nil_r.
  - case_decide; rewrite IH; [done|]. by rewrite <- app_assoc.
Qed.

Lemma dedupe_jobs_from (jobs : list job) :
  dedupe_jobs jobs = dedupe_from ∅ jobs.
Proof. unfold dedupe_jobs. by rewrite loop_from. Qed.

Lemma from_fresh (seen : gset string) (jobs : list job) (j : job) :
  j ∈ dedupe_from seen jobs → (job_key j ∉ seen) ∧ j ∈ jobs.
Proof.
  revert seen. induction jobs as [|x rest IH]; intros seen; simpl.
  - by intros ?%elem_of_nil.
  - case_decide as Hx.
    + intros [? ?]%IH. split; [done | by right].
    + intros [->|[Hk ?]%IH]%elem_of_cons.
      * split; [done | by left].
      * split; [set_solver | by right].
Qed.

Lemma from_NoDup (seen : gset string) (jobs : list job) :
  NoDup (job_key <$> dedupe_from seen jobs).
Proof.
  revert seen. induction jobs as [|x rest IH]; intros seen; simpl.
  - constructor.
  - case_decide as Hx; [apply IH|].
    rewrite fmap_cons. constructor; [|apply IH].
    intros [j [Hj Hin]]%list_elem_of_fmap.
    apply from_fresh in Hin as [Hk _]. set_solver.
Qed.

Lemma from_sublist (seen : gset string) (jobs : list job) :
  dedupe_from seen jobs `sublist_of` jobs.
Proof.
  revert seen. induction jobs as [|x rest IH]; intros seen; simpl.
  - constructor.
  - case_decide; [apply sublist_cons | apply sublist_skip]; apply IH.
Qed.

Lemma from_app (seen : gset string) (l1 l2 : list job) :
  dedupe_from seen (l1 ++ l2)
  = dedupe_from seen l1 ++ dedupe_from (keys l1 ∪ seen) l2.
Proof.
  revert seen. induction l1 as [|x l1 IH]; intros seen; simpl.
  - unfold keys. simpl. by rewrite (left_id_L ∅ (∪)).
  - unfold keys in *. rewrite fmap_cons, list_to_set_cons.
    case_decide as Hx; rewrite IH.
    + f_equal. f_equal. set_solver.
    + simpl. f_equal. f_equal. f_equal. set_solver.
Qed.

Lemma from_fixed (seen : gset string) (l : list job) :
  NoDup (job_key <$> l) → (∀ j, j ∈ l → job_key j ∉ seen) →
  dedupe_from seen l = l.
Proof.
  revert seen. induction l as [|x l IH]; intros seen Hnd Hfresh; simpl.
  - done.
  - rewrite fmap_cons in Hnd. apply NoDup_cons in Hnd as [Hx Hnd].
    case_decide as Hin; [exfalso; by apply (Hfresh x); [left|] |].
    f_equal. apply IH; [done|].
    intros j Hj [Hk%elem_of_singleton|Hs]%elem_of_union.
    + apply Hx, list_elem_of_fmap. by exists j.
    + by apply (Hfresh j); [right|].
Qed.

Lemma from_keys (seen : gset string) (jobs : list job) :
  keys (dedupe_from seen jobs) ∪ seen = keys jobs ∪ seen.
Proof.
  revert seen. unfold keys.
  induction jobs as [|x rest IH]; intros seen; [done|].
  rewrite (fmap_cons job_key x rest), list_to_set_cons.
  cbn [dedupe_from]. case_decide as Hx.
  - rewrite IH. set_solver.
  - rewrite fmap_cons, list_to_set_cons.
    specialize (IH ({[job_key x]} ∪ seen)).
    apply set_eq. intros k. apply (proj1 (set_eq _ _)) with (x := k) in IH.
    rewrite !elem_of_union in IH |- *. tauto.
Qed.

Lemma elem_of_keys (k : string) (jobs : list job) :
  k ∈ keys jobs ↔ k ∈ job_key <$> jobs.
Proof. unfold keys. by rewrite elem_of_list_to_set. Qed.

Lemma dedupe_NoDup (jobs : list job) : NoDup (job_key <$> dedupe_jobs jobs).
Proof. rewrite dedupe_jobs_from. apply from_NoDup. Qed.

End Dedupe.

Lemma get_or_else_empty (v : option string) : get_or_else v "" = default "" v.
Proof. unfold get_or_else, Str.or_else. by destruct v as [[|c s]|]. Qed.

(** C3. No two entries of [dedupe_jobs jobs] share an identity key: the
    keys of the output are pairwise distinct, so two positions of the
    output that hold the same key are the same position.  The identity key
    is the trimmed link when that is not empty, and the company, a bar and
    the title otherwise. *)
Theorem dedupe_jobs_distinct_keys (jobs : list job) :
  NoDup (job_key <$> dedupe_jobs jobs)
  ∧ (∀ i1 i2 j1 j2,
       dedupe_jobs jobs !! i1 = Some j1 →
       dedupe_jobs jobs !! i2 = Some j2 →
       job_key j1 = job_key j2 → i1 = i2)
  ∧ (∀ j, job_key j =
          let trimmed := Str.strip (default "" (link j)) in
          if Str.truthy trimmed then trimmed
          else default "" (company j) +:+ "|" +:+ default "" (title j)).
Proof.
  pose proof (Dedupe.dedupe_NoDup jobs) as Hnd.
  split; [done|]. split.
  - intros i1 i2 j1 j2 H1 H2 Hk.
    eapply NoDup_lookup; [exact Hnd| |].
    + rewrite list_lookup_fmap, H1. reflexivity.
    + rewrite list_lookup_fmap, H2. simpl. by rewrite Hk.
  - intros j. unfold job_key, Str.or_else, get_or.
    by rewrite get_or_else_empty.
Qed.

(** C4. [dedupe_jobs] keeps exactly the first occurrence of each identity
    key, in input order: its output is a subsequence of the input; a job
    whose key does not occur before it is kept, right after what is kept of
    the jobs before it; a job whose key occurs before it is dropped and
    changes nothing else; every key of the input is a key of the output,
    once.  And [dedupe_jobs] is idempotent. *)
Theorem dedupe_jobs_first_seen (jobs : list job) :
  dedupe_jobs jobs `sublist_of` jobs
  ∧ (∀ pre j post, jobs = pre ++ j :: post →
       job_key j ∉ job_key <$> pre →
       ∃ post', dedupe_jobs jobs = dedupe_jobs pre ++ j :: post'
                ∧ post' `sublist_of` post)
  ∧ (∀ pre j post, jobs = pre ++ j :: post →
       job_key j ∈ job_key <$> pre →
       dedupe_jobs jobs = dedupe_jobs (pre ++ post))
  ∧ (∀ k, k ∈ job_key <$> jobs ↔ k ∈ job_key <$> dedupe_jobs jobs)
  ∧ NoDup (job_key <$> dedupe_jobs jobs)
  ∧ dedupe_jobs (dedupe_jobs jobs) = dedupe_jobs jobs.
Proof.
  rewrite !Dedupe.dedupe_jobs_from. repeat split.
  - apply Dedupe.from_sublist.
  - intros pre j post -> Hfresh. rewrite Dedupe.from_app. simpl.
    rewrite decide_False.
    + eexists. rewrite Dedupe.dedupe_jobs_from.
      split; [reflexivity | apply Dedupe.from_sublist].
    + rewrite elem_of_union, Dedupe.elem_of_keys. set_solver.
  - intros pre j post -> Hdup.
    rewrite Dedupe.dedupe_jobs_from, !Dedupe.from_app. simpl.
    rewrite decide_True; [done|].
    rewrite elem_of_union, Dedupe.elem_of_keys. by left.
  - intros Hk. apply Dedupe.elem_of_keys.
    apply Dedupe.elem_of_keys in Hk.
    pose proof (Dedupe.from_keys ∅ jobs) as Heq.
    rewrite !(right_id_L ∅ (∪)) in Heq. by rewrite Heq.
  - intros Hk. apply Dedupe.elem_of_keys.
    apply Dedupe.elem_of_keys in Hk.
    pose proof (Dedupe.from_keys ∅ jobs) as Heq.
    rewrite !(right_id_L ∅ (∪)) in Heq. by rewrite <- Heq.
  - apply Dedupe.from_NoDup.
  - apply Dedupe.from_fixed.
    + apply Dedupe.from_NoDup.
    + intros j _. apply not_elem_of_empty.
Qed.

(** ** The fetchers *)

Module Fetch.

Lemma guarded_outcome {A} (body : M A) (label : string) (d : A) :
  outcome (try_except body
             (fun e => emit (ev_print_error label e);;; ret d))
  = inr (match outcome body with inl _ => d | inr a => a end).
Proof.
  unfold try_except, outcome. destruct body as [log [e|a]]; reflexivity.
Qed.

Lemma guarded_events {A} (body : M A) (label : string) (d : A) :
  events (try_except body
            (fun e => emit (ev_print_error label e);;; ret d))
  = events body
    ++ match outcome body with
       | inl e => [ev_print_error label e]
       | inr _ => []
       end.
Proof.
  unfold try_except, events, outcome.
  destruct body as [log [e|a]]; simpl; [done | by rewrite app_nil_r].
Qed.

(** The try body of a fetcher: the request, the status check, the body
    read, then a computation on what was read. *)
Lemma body_outcome {B A} (url : string) (params : list (string * string))
    (r : http_result (exn + B)) (k : B → M A) :
  outcome (resp <- requests_get url params r;;
           raise_for_status resp.1;;;
           x <- lift resp.2;;
           k x)
  = match r with
    | request_raises e => inl e
    | http_response status_code body =>
        if is_error_status status_code then inl (HTTPError status_code)
        else match body with
             | inl e => inl e
             | inr x => outcome (k x)
             end
    end.
Proof.
  destruct r as [e|status_code [e|x]]; try reflexivity;
    unfold outcome, bind, requests_get, raise_for_status; simpl;
    destruct (is_error_status status_code); reflexivity.
Qed.

Lemma body_events {B A} (url : string) (params : list (string * string))
    (r : http_result (exn + B)) (k : B → M A) :
  events (resp <- requests_get url params r;;
          raise_for_status resp.1;;;
          x <- lift resp.2;;
          k x)
  = ev_get url params 15 HEADERS
    :: match r with
       | http_response status_code (inr x) =>
           if is_error_status status_code then [] else events (k x)
       | _ => []
       end.
Proof.
  destruct r as [e|status_code [e|x]]; try reflexivity;
    unfold events, bind, requests_get, raise_for_status; simpl;
    destruct (is_error_status status_code); reflexivity.
Qed.

Lemma remotive_loop_events (jobs : list job) (data : list listing) :
  events (remotive_loop jobs data) = [].
Proof.
  revert jobs. induction data as [|[e|t c l u] rest IH]; intros jobs;
    simpl; try reflexivity.
  destruct (remotive_match _); apply IH.
Qed.

(** Past well-formed elements the loop keeps the titles that match. *)
Lemma remotive_loop_objects (jobs : list job) (data : list listing) :
  existsb is_invalid data = false →
  outcome (remotive_loop jobs data) = inr (jobs ++ omap listing_job data).
Proof.
  revert jobs. induction data as [|[e|t c l u] rest IH]; intros jobs;
    simpl; intros Hok.
  - by rewrite app_nil_r.
  - discriminate.
  - destruct (remotive_match _); rewrite IH by done; [|done].
    by rewrite <- app_assoc.
Qed.

(** One element that cannot be read loses the whole list. *)
Lemma remotive_loop_invalid (jobs : list job) (data : list listing) :
  existsb is_invalid data = true →
  ∃ e, outcome (remotive_loop jobs data) = inl e.
Proof.
  revert jobs. induction data as [|[e|t c l u] rest IH]; intros jobs;
    simpl; intros Hbad.
  - discriminate.
  - by exists e.
  - destruct (remotive_match _); by apply IH.
Qed.

Lemma fetch_remotive_outcome (r : remotive_response) :
  outcome (fetch_remotive r)
  = inr (match r with
         | http_response status_code (inr data) =>
             if is_error_status status_code || existsb is_invalid data
             then [] else omap listing_job data
         | _ => []
         end).
Proof.
  unfold fetch_remotive. rewrite guarded_outcome, body_outcome.
  destruct r as [e|status_code [e|data]]; try reflexivity;
    destruct (is_error_status status_code); try reflexivity.
  simpl. destruct (existsb is_invalid data) eqn:Hd.
  - by destruct (remotive_loop_invalid [] data Hd) as [e ->].
  - by rewrite remotive_loop_objects.
Qed.

Section WithUrljoin.
Variable urljoin : string → string → string.

Lemma topstartups_loop_spec (jobs : list job) (anchors : list anchor) :
  topstartups_loop urljoin jobs anchors
  = jobs ++ map (topstartups_emit urljoin)
                (List.filter topstartups_accepts anchors).
Proof.
  revert jobs. induction anchors as [|a rest IH]; intros jobs; simpl.
  - by rewrite app_nil_r.
  - unfold topstartups_accepts at 1.
    destruct (negb (Str.truthy (a_href a)) || negb (Str.truthy (a_text a)));
      simpl; [apply IH|].
    destruct (topstartups_match (a_text a)); rewrite IH; [|done].
    by rewrite <- app_assoc.
Qed.

Lemma wellfound_loop_spec (base : string) (jobs : list job)
    (anchors : list anchor) :
  wellfound_loop urljoin base jobs anchors
  = jobs ++ map (wellfound_emit urljoin base)
                (List.filter wellfound_accepts anchors).
Proof.
  revert jobs. induction anchors as [|a rest IH]; intros jobs; simpl.
  - by rewrite app_nil_r.
  - unfold wellfound_accepts at 1.
    destruct (negb (Str.truthy (a_href a)) || negb (Str.truthy (a_text a)));
      simpl; [apply IH|].
    destruct (wellfound_match (a_text a)); rewrite IH; [|done].
    by rewrite <- app_assoc.
Qed.

Lemma fetch_topstartups_outcome (r : page_response) :
  outcome (fetch_topstartups urljoin r)
  = inr (match r with
         | http_response status_code (inr anchors) =>
             if is_error_status status_code then []
             else map (topstartups_emit urljoin)
                      (List.filter topstartups_accepts anchors)
         | _ => []
         end).
Proof.
  unfold fetch_topstartups. rewrite guarded_outcome, body_outcome.
  destruct r as [e|status_code [e|anchors]]; try reflexivity;
    destruct (is_error_status status_code); try reflexivity.
  simpl. by rewrite topstartups_loop_spec.
Qed.

Lemma fetch_wellfound_outcome (r : page_response) :
  outcome (fetch_wellfound urljoin r)
  = inr (match r with
         | http_response status_code (inr anchors) =>
             if is_error_status status_code then []
             else map (wellfound_emit urljoin "https://wellfound.com")
                      (List.filter wellfound_accepts anchors)
         | _ => []
         end).
Proof.
  unfold fetch_wellfound. rewrite guarded_outcome, body_outcome.
  destruct r as [e|status_code [e|anchors]]; try reflexivity;
    destruct (is_error_status status_code); try reflexivity.
  simpl. by rewrite wellfound_loop_spec.
Qed.

End WithUrljoin.

End Fetch.

(** ** main *)

Module Run.

Lemma bind_outcome {A B} (m : M A) (k : A → M B) :
  outcome (bind m k)
  = match outcome m with inl e => inl e | inr a => outcome (k a) end.
Proof. unfold bind, outcome. by destruct m as [log [e|a]]. Qed.

Lemma bind_events {A B} (m : M A) (k : A → M B) :
  events (bind m k)
  = events m
    ++ match outcome m with inl _ => [] | inr a => events (k a) end.
Proof.
  unfold bind, events, outcome.
  destruct m as [log [e|a]]; simpl; [by rewrite app_nil_r | done].
Qed.

Lemma quiet_bind {A B} (m : M A) (k : A → M B) :
  quiet m = true → (∀ a, quiet (k a) = true) → quiet (bind m k) = true.
Proof.
  unfold quiet. rewrite bind_events, forallb_app. intros -> Hk. simpl.
  destruct (outcome m) as [e|a]; [done | apply Hk].
Qed.

Lemma quiet_mailed {A} (m : M A) : quiet m = true → mailed m = [].
Proof.
  unfold quiet, mailed. generalize (events m) as log.
  induction log as [|ev log IH]; [done|].
  intros [Hev Hlog]%andb_prop.
  destruct ev; simpl in *; try discriminate; by apply IH.
Qed.

Lemma quiet_guarded {A} (body : M A) (label : string) (d : A) :
  quiet body = true →
  quiet (try_except body
           (fun e => emit (ev_print_error label e);;; ret d)) = true.
Proof.
  unfold quiet. rewrite Fetch.guarded_events, forallb_app. intros ->.
  by destruct (outcome body).
Qed.

Lemma quiet_body {B A} (url : string) (params : list (string * string))
    (r : http_result (exn + B)) (k : B → M A) :
  (∀ x, quiet (k x) = true) →
  quiet (resp <- requests_get url params r;;
         raise_for_status resp.1;;;
         x <- lift resp.2;;
         k x) = true.
Proof.
  intros Hk. unfold quiet. rewrite Fetch.body_events. simpl.
  destruct r as [e|status_code [e|x]]; try done.
  destruct (is_error_status status_code); [done | apply Hk].
Qed.

Lemma quiet_fetch_remotive (r : remotive_response) :
  quiet (fetch_remotive r) = true.
Proof.
  apply quiet_guarded, quiet_body. intros data. unfold quiet.
  by rewrite Fetch.remotive_loop_events.
Qed.

Section WithUrljoin.
Variable urljoin : string → string → string.

Lemma quiet_fetch_topstartups (r : page_response) :
  quiet (fetch_topstartups urljoin r) = true.
Proof. by apply quiet_guarded, quiet_body. Qed.

Lemma quiet_fetch_wellfound (r : page_response) :
  quiet (fetch_wellfound urljoin r) = true.
Proof. by apply quiet_guarded, quiet_body. Qed.

Lemma quiet_collect (w : world) : quiet (collect urljoin w) = true.
Proof.
  unfold collect.
  apply quiet_bind; [apply quiet_fetch_remotive | intros j1].
  apply quiet_bind; [done | intros _].
  apply quiet_bind; [apply quiet_fetch_topstartups | intros j2].
  apply quiet_bind; [done | intros _].
  apply quiet_bind; [apply quiet_fetch_wellfound | intros j3].
  done.
Qed.

(** [all_jobs] is the three results, in call order. *)
Lemma collect_outcome (w : world) (j1 j2 j3 : list job) :
  outcome (fetch_remotive (remotive w)) = inr j1 →
  outcome (fetch_topstartups urljoin (topstartups w)) = inr j2 →
  outcome (fetch_wellfound urljoin (wellfound w)) = inr j3 →
  outcome (collect urljoin w) = inr (j1 ++ j2 ++ j3).
Proof.
  intros H1 H2 H3. unfold collect.
  rewrite bind_outcome, H1, bind_outcome. simpl.
  rewrite bind_outcome, H2, bind_outcome. simpl.
  rewrite bind_outcome, H3. simpl. by rewrite <- app_assoc.
Qed.

Lemma main_outcome (cfg : config) (w : world) (all_jobs : list job) :
  outcome (collect urljoin w) = inr all_jobs →
  outcome (main urljoin cfg w)
  = outcome (report cfg (sendgrid w) (dedupe_jobs all_jobs)).
Proof. intros H. unfold main. by rewrite bind_outcome, H. Qed.

Lemma main_mailed (cfg : config) (w : world) (all_jobs : list job) :
  outcome (collect urljoin w) = inr all_jobs →
  mailed (main urljoin cfg w)
  = mailed (report cfg (sendgrid w) (dedupe_jobs all_jobs)).
Proof.
  intros H. unfold main, mailed. rewrite bind_events, H.
  rewrite omap_app. fold (mailed (collect urljoin w)).
  by rewrite quiet_mailed by apply quiet_collect.
Qed.

End WithUrljoin.

(** What [send_email] does, by the value of the key. *)
Lemma send_email_no_key (cfg : config) (sg : exn + Z) (html : string) :
  Str.truthy (default "" (SENDGRID_API_KEY cfg)) = false →
  send_email cfg sg html = raise no_key_error.
Proof.
  unfold send_email. by destruct (SENDGRID_API_KEY cfg) as [[|c k]|].
Qed.

Lemma send_email_key (cfg : config) (sg : exn + Z) (html : string) :
  Str.truthy (default "" (SENDGRID_API_KEY cfg)) = true →
  send_email cfg sg html
  = ([ev_mail (FROM_EMAIL cfg) (TO_EMAIL cfg)
              "Daily Remote Data Analyst Jobs" html;
      ev_send (default "" (SENDGRID_API_KEY cfg))]
     ++ match sg with
        | inl _ => []
        | inr status_code =>
            [ev_print_status "Email sent, status:" status_code]
        end,
     match sg with inl e => inl e | inr _ => inr tt end).
Proof.
  unfold send_email.
  destruct (SENDGRID_API_KEY cfg) as [[|c k]|]; try done.
  intros _. by destruct sg.
Qed.

Lemma html_rows_app (rows : string) (jobs : list job) :
  html_rows rows jobs = rows +:+ html_rows "" jobs.
Proof.
  revert rows. induction jobs as [|j rest IH]; intros rows; simpl.
  - by rewrite StrFacts.app_nil_r.
  - rewrite IH, (IH (html_row j)). by rewrite StrFacts.app_assoc.
Qed.

End Run.

(** ** The title and anchor tests *)

Lemma rule_spec (txt : string) :
  data_analyst_rule txt = true ↔
  Str.Substring "data analyst" (Str.lower txt)
  ∨ (Str.Substring "data" (Str.lower txt)
     ∧ Str.Substring "analyst" (Str.lower txt)).
Proof.
  unfold data_analyst_rule.
  rewrite orb_true_iff, andb_true_iff, !StrFacts.contains_spec. tauto.
Qed.

(** The first alternative of the rule is a case of the second. *)
Lemma rule_both (txt : string) :
  data_analyst_rule txt = true ↔
  Str.Substring "data" (Str.lower txt)
  ∧ Str.Substring "analyst" (Str.lower txt).
Proof.
  rewrite rule_spec. split; [|tauto]. intros [H|H]; [|done]. split.
  - by apply (StrFacts.substring_app_l "data" " analyst").
  - by apply (StrFacts.substring_app_r "data " "analyst").
Qed.

Lemma rule_analyst (txt : string) :
  data_analyst_rule txt = true →
  Str.contains "analyst" (Str.lower txt) = true.
Proof. intros [_ H]%rule_both. by apply StrFacts.contains_spec. Qed.

(** C5. The title test of [fetch_remotive] is the rule of the
    specification: on the lowered title, "data analyst" occurs, or "data"
    and "analyst" both occur, in any order.  Titles that differ only in
    case get the same answer.  "Senior Data Analyst" and "Analyst of Data
    Systems" pass, "Data Scientist" does not.  The loop keeps a listing
    exactly when its title passes. *)
Theorem remotive_title_filter :
  (∀ title, remotive_match title = data_analyst_rule title)
  ∧ (∀ title, remotive_match title = true ↔
       Str.Substring "data analyst" (Str.lower title)
       ∨ (Str.Substring "data" (Str.lower title)
          ∧ Str.Substring "analyst" (Str.lower title)))
  ∧ (∀ t1 t2, Str.lower t1 = Str.lower t2 →
       remotive_match t1 = remotive_match t2)
  ∧ (∀ title, remotive_match (Str.lower title) = remotive_match title)
  ∧ remotive_match "Senior Data Analyst" = true
  ∧ remotive_match "Data Scientist" = false
  ∧ remotive_match "Analyst of Data Systems" = true
  ∧ (∀ t c l u,
       outcome (fetch_remotive
                  (http_response 200 (inr [listing_object (Some t) c l u])))
       = inr (if data_analyst_rule t then [remotive_job t c l u] else [])).
Proof.
  assert (Hrule : ∀ title, remotive_match title = data_analyst_rule title)
    by reflexivity.
  split; [exact Hrule|]. split.
  { intros title. rewrite Hrule. apply rule_spec. }
  split.
  { intros t1 t2 Heq. unfold remotive_match. by rewrite Heq. }
  split.
  { intros title. unfold remotive_match. by rewrite StrFacts.lower_idemp. }
  repeat split; try reflexivity.
  intros t c l u. rewrite Fetch.fetch_remotive_outcome. simpl.
  rewrite Hrule. by destruct (data_analyst_rule t).
Qed.

(** C1, as the code has it.  For an anchor with a text and an href,
    [fetch_wellfound] emits a job exactly when the lowered text contains
    "data analyst" or both "data" and "analyst"; [fetch_topstartups] emits a
    job exactly when the lowered text contains "analyst" and the text is
    shorter than 200 characters, with no test for "data".  So a text under
    200 characters that passes the rule is also emitted by
    [fetch_topstartups].  Over a whole page each loop emits, in document
    order, one job per accepted anchor. *)
Theorem scrape_anchor_rules (urljoin : string → string → string) :
  (∀ a, Str.truthy (a_text a) = true → Str.truthy (a_href a) = true →
     wellfound_loop urljoin "https://wellfound.com" [] [a]
     = (if data_analyst_rule (a_text a)
        then [wellfound_emit urljoin "https://wellfound.com" a] else [])
     ∧ topstartups_loop urljoin [] [a]
       = (if Str.contains "analyst" (Str.lower (a_text a))
             && (Str.len (a_text a) <? 200)%Z
          then [topstartups_emit urljoin a] else [])
     ∧ (data_analyst_rule (a_text a) = true →
        (Str.len (a_text a) < 200)%Z →
        topstartups_loop urljoin [] [a] = [topstartups_emit urljoin a]))
  ∧ (∀ anchors,
       outcome (fetch_wellfound urljoin (http_response 200 (inr anchors)))
       = inr (map (wellfound_emit urljoin "https://wellfound.com")
                  (List.filter
                     (fun a => Str.truthy (a_href a) && Str.truthy (a_text a)
                               && data_analyst_rule (a_text a))
                     anchors)))
  ∧ (∀ anchors,
       outcome (fetch_topstartups urljoin (http_response 200 (inr anchors)))
       = inr (map (topstartups_emit urljoin)
                  (List.filter
                     (fun a => Str.truthy (a_href a) && Str.truthy (a_text a)
                               && (Str.contains "analyst" (Str.lower (a_text a))
                                   && (Str.len (a_text a) <? 200)%Z))
                     anchors))).
Proof.
  split; [|split].
  - intros a Htxt Hhref. simpl. rewrite Htxt, Hhref. simpl.
    fold (data_analyst_rule (a_text a)).
    unfold wellfound_match, topstartups_match.
    fold (data_analyst_rule (a_text a)).
    split; [by destruct (data_analyst_rule (a_text a))|].
    split; [by destruct (Str.contains _ _ && _)|].
    intros Hrule%rule_analyst Hlen%Z.ltb_lt.
    by rewrite Hrule, Hlen.
  - intros anchors. rewrite Fetch.fetch_wellfound_outcome. simpl.
    do 2 f_equal. apply List.filter_ext. intros a.
    unfold wellfound_accepts, wellfound_match, data_analyst_rule.
    by destruct (Str.truthy (a_href a)), (Str.truthy (a_text a)).
  - intros anchors. rewrite Fetch.fetch_topstartups_outcome. simpl.
    do 2 f_equal. apply List.filter_ext. intros a.
    unfold topstartups_accepts, topstartups_match.
    by destruct (Str.truthy (a_href a)), (Str.truthy (a_text a)).
Qed.

(** C1 as stated fails for [fetch_topstartups]: the anchor text "Financial
    Analyst" has no "data" in it, so the stated rule rejects it, and the
    loop emits a job for it. *)
Lemma topstartups_emits_without_data :
  Str.truthy "Financial Analyst" = true
  ∧ Str.truthy "/jobs/1" = true
  ∧ (data_analyst_rule "Financial Analyst"
     && (Str.len "Financial Analyst" <? 200)%Z) = false
  ∧ outcome (fetch_topstartups (fun base href => base +:+ href)
               (http_response 200
                  (inr [Anchor "Financial Analyst" "/jobs/1"])))
    = inr [topstartups_job "Financial Analyst"
             "https://topstartups.io/jobs/1"].
Proof. repeat split; vm_compute; reflexivity. Qed.

(** C10. The link of an emitted job is the href itself when the href
    starts with the four characters "http", and [urljoin] of the base of
    the source and the href otherwise.  The test looks at nothing else:
    "mailto:x" is joined, "httpx/y" is used as it is. *)
Theorem scrape_link_resolution (urljoin : string → string → string) :
  (∀ anchors,
     link <$> topstartups_loop urljoin [] anchors
     = map (fun a => Some (if Str.startswith (a_href a) "http"
                           then a_href a
                           else urljoin "https://topstartups.io" (a_href a)))
           (List.filter topstartups_accepts anchors))
  ∧ (∀ anchors,
       ∃ jobs,
         outcome (fetch_wellfound urljoin (http_response 200 (inr anchors)))
         = inr jobs
         ∧ link <$> jobs
           = map (fun a => Some (if Str.startswith (a_href a) "http"
                                 then a_href a
                                 else urljoin "https://wellfound.com" (a_href a)))
                 (List.filter wellfound_accepts anchors))
  ∧ (∀ href, Str.startswith href "http" = true ↔ ∃ rest, href = "http" +:+ rest)
  ∧ (∀ base, full_link urljoin base "mailto:x" = urljoin base "mailto:x")
  ∧ (∀ base, full_link urljoin base "httpx/y" = "httpx/y")
  ∧ (∀ txt, topstartups_match txt = true →
       link <$> topstartups_loop urljoin [] [Anchor txt "mailto:x"]
       = [Some (urljoin "https://topstartups.io" "mailto:x")]
       ∧ link <$> topstartups_loop urljoin [] [Anchor txt "httpx/y"]
         = [Some "httpx/y"]).
Proof.
  split; [|split; [|split; [|split; [|split]]]].
  - intros anchors. rewrite Fetch.topstartups_loop_spec. simpl.
    induction (List.filter topstartups_accepts anchors) as [|a l IH];
      [done | simpl; by rewrite <- IH].
  - intros anchors. eexists. split.
    + rewrite Fetch.fetch_wellfound_outcome. reflexivity.
    + simpl.
      induction (List.filter wellfound_accepts anchors) as [|a l IH];
        [done | simpl; by rewrite <- IH].
  - intros href. apply StrFacts.prefix_app.
  - reflexivity.
  - reflexivity.
  - intros txt Hm. simpl.
    destruct txt as [|c txt]; [discriminate Hm|].
    simpl. rewrite Hm. by split.
Qed.

(** ** Failures of a source *)

Lemma remotive_fails_empty (r : remotive_response) :
  remotive_fails r = true → outcome (fetch_remotive r) = inr [].
Proof.
  rewrite Fetch.fetch_remotive_outcome. unfold remotive_fails.
  destruct r as [e|status_code [e|data]]; simpl; try done.
  by intros ->.
Qed.

Lemma topstartups_fails_empty (urljoin : string → string → string)
    (r : page_response) :
  response_fails r = true → outcome (fetch_topstartups urljoin r) = inr [].
Proof.
  rewrite Fetch.fetch_topstartups_outcome.
  destruct r as [e|status_code [e|anchors]]; simpl; try done.
  by intros ->.
Qed.

Lemma wellfound_fails_empty (urljoin : string → string → string)
    (r : page_response) :
  response_fails r = true → outcome (fetch_wellfound urljoin r) = inr [].
Proof.
  rewrite Fetch.fetch_wellfound_outcome.
  destruct r as [e|status_code [e|anchors]]; simpl; try done.
  by intros ->.
Qed.

(** C7. Each fetcher returns a list whatever its request meets, and the
    list is empty when the request raises, when the status is an error
    status, or when the response cannot be read.  [all_jobs] is the three
    lists in call order, so replacing the answer of one source by a failing
    one removes that source's jobs and leaves the other two lists as they
    were. *)
Theorem fetch_failure_isolated (urljoin : string → string → string)
    (r1 : remotive_response) (r2 r3 : page_response) (sg : exn + Z) :
  ∃ j1 j2 j3,
    outcome (fetch_remotive r1) = inr j1
    ∧ outcome (fetch_topstartups urljoin r2) = inr j2
    ∧ outcome (fetch_wellfound urljoin r3) = inr j3
    ∧ outcome (collect urljoin (World r1 r2 r3 sg)) = inr (j1 ++ j2 ++ j3)
    ∧ (remotive_fails r1 = true → j1 = [])
    ∧ (response_fails r2 = true → j2 = [])
    ∧ (response_fails r3 = true → j3 = [])
    ∧ (∀ bad, remotive_fails bad = true →
         outcome (fetch_remotive bad) = inr []
         ∧ outcome (collect urljoin (World bad r2 r3 sg)) = inr (j2 ++ j3))
    ∧ (∀ bad, response_fails bad = true →
         outcome (fetch_topstartups urljoin bad) = inr []
         ∧ outcome (collect urljoin (World r1 bad r3 sg)) = inr (j1 ++ j3))
    ∧ (∀ bad, response_fails bad = true →
         outcome (fetch_wellfound urljoin bad) = inr []
         ∧ outcome (collect urljoin (World r1 r2 bad sg)) = inr (j1 ++ j2)).
Proof.
  pose proof (Fetch.fetch_remotive_outcome r1) as H1.
  pose proof (Fetch.fetch_topstartups_outcome urljoin r2) as H2.
  pose proof (Fetch.fetch_wellfound_outcome urljoin r3) as H3.
  eexists _, _, _.
  split; [exact H1|]. split; [exact H2|]. split; [exact H3|].
  split; [by apply Run.collect_outcome|].
  split.
  { intros Hf. apply remotive_fails_empty in Hf. congruence. }
  split.
  { intros Hf. apply (topstartups_fails_empty urljoin) in Hf. congruence. }
  split.
  { intros Hf. apply (wellfound_fails_empty urljoin) in Hf. congruence. }
  split; [|split].
  - intros bad Hf%remotive_fails_empty. split; [done|].
    by rewrite (Run.collect_outcome urljoin (World bad r2 r3 sg) [] _ _ Hf H2 H3).
  - intros bad Hf%(topstartups_fails_empty urljoin). split; [done|].
    by rewrite (Run.collect_outcome urljoin (World r1 bad r3 sg) _ [] _ H1 Hf H3).
  - intros bad Hf%(wellfound_fails_empty urljoin). split; [done|].
    rewrite (Run.collect_outcome urljoin (World r1 r2 bad sg) _ _ [] H1 H2 Hf).
    by rewrite app_nil_r.
Qed.

(** ** The mail *)

(** [collect] always returns. *)
Lemma collect_returns (urljoin : string → string → string) (w : world) :
  ∃ all_jobs, outcome (collect urljoin w) = inr all_jobs.
Proof.
  eexists. apply Run.collect_outcome.
  - apply Fetch.fetch_remotive_outcome.
  - apply Fetch.fetch_topstartups_outcome.
  - apply Fetch.fetch_wellfound_outcome.
Qed.

Lemma report_no_key (cfg : config) (sg : exn + Z) (jobs : list job) :
  Str.truthy (default "" (SENDGRID_API_KEY cfg)) = false →
  outcome (report cfg sg jobs) = inl no_key_error
  ∧ quiet (report cfg sg jobs) = true.
Proof.
  intros Hk. unfold report.
  destruct jobs as [|j rest]; rewrite Run.send_email_no_key by done; done.
Qed.

Lemma report_mailed (cfg : config) (sg : exn + Z) (jobs : list job) :
  Str.truthy (default "" (SENDGRID_API_KEY cfg)) = true →
  mailed (report cfg sg jobs)
  = [match jobs with [] => no_jobs_html | _ :: _ => build_html_table jobs end].
Proof.
  intros Hk. unfold report.
  destruct jobs as [|j rest]; rewrite Run.send_email_key by done;
    by destruct sg.
Qed.

(** C6, as the code has it.  When SENDGRID_API_KEY is absent or is the
    empty string, [send_email] raises for every body, having logged
    nothing: no message is built and SendGrid is not called.  [main] does
    not catch the error: it ends with it, and its log holds neither a
    message nor a call to SendGrid.  When the key is a string that is not
    empty, the test raises nothing: the message is built with the body
    given, and [send_email] ends as the call to SendGrid ends. *)
Theorem send_email_credential_check (urljoin : string → string → string)
    (cfg : config) :
  (SENDGRID_API_KEY cfg = None ∨ SENDGRID_API_KEY cfg = Some "" →
     (∀ sg html_body,
        send_email cfg sg html_body = ([], inl no_key_error))
     ∧ (∀ w, outcome (main urljoin cfg w) = inl no_key_error
             ∧ quiet (main urljoin cfg w) = true))
  ∧ (∀ key, SENDGRID_API_KEY cfg = Some key → key ≠ "" →
       ∀ sg html_body,
         outcome (send_email cfg sg html_body)
         = match sg with inl e => inl e | inr _ => inr tt end
         ∧ mailed (send_email cfg sg html_body) = [html_body]
         ∧ ∃ log, events (send_email cfg sg html_body)
                  = ev_mail (FROM_EMAIL cfg) (TO_EMAIL cfg)
                            "Daily Remote Data Analyst Jobs" html_body
                    :: ev_send key :: log).
Proof.
  split.
  - intros Hkey.
    assert (Hk : Str.truthy (default "" (SENDGRID_API_KEY cfg)) = false)
      by (destruct Hkey as [-> | ->]; reflexivity).
    split; [intros sg html_body; by apply Run.send_email_no_key|].
    intros w.
    destruct (collect_returns urljoin w) as [all_jobs Hall].
    split.
    + rewrite (Run.main_outcome urljoin cfg w all_jobs Hall).
      by apply report_no_key.
    + unfold main. apply Run.quiet_bind; [apply Run.quiet_collect|].
      intros a. by apply report_no_key.
  - intros key Hkey Hne sg html_body.
    assert (Hk : Str.truthy (default "" (SENDGRID_API_KEY cfg)) = true)
      by (rewrite Hkey; simpl; by apply StrFacts.truthy_true).
    rewrite (Run.send_email_key cfg sg html_body Hk), Hkey.
    repeat split; [by destruct sg | eexists; reflexivity].
Qed.

(** C6 as stated fails when the variable is present and empty: the key is
    read, it is the empty string, and [send_email] raises the same error. *)
Lemma send_email_empty_key_raises :
  SENDGRID_API_KEY (load_config {["SENDGRID_API_KEY" := ""]}) = Some ""
  ∧ send_email (load_config {["SENDGRID_API_KEY" := ""]}) (inr 202%Z)
      "<p>No remote Data Analyst jobs found today.</p>"
    = ([], inl (RuntimeError "SENDGRID_API_KEY not set in environment")).
Proof. split; vm_compute; reflexivity. Qed.

(** What [build_html_table] itself returns on the empty list: the heading
    and a table with no body row.  [main] never calls it so. *)
Lemma build_html_table_nil :
  build_html_table [] = table_head +:+ table_foot
  ∧ Str.contains "<table" (build_html_table []) = true.
Proof. split; vm_compute; reflexivity. Qed.

(** C2. For the empty job list the mail body is the fixed paragraph, which
    holds no table: [main] takes its first branch, and the only message
    built has that paragraph, and nothing else, as its content. *)
Theorem empty_digest (urljoin : string → string → string) :
  no_jobs_html = "<p>No remote Data Analyst jobs found today.</p>"
  ∧ Str.contains "<table" no_jobs_html = false
  ∧ (∀ cfg sg,
       mailed (report cfg sg [])
       = if Str.truthy (default "" (SENDGRID_API_KEY cfg))
         then [no_jobs_html] else [])
  ∧ (∀ cfg w,
       outcome (collect urljoin w) = inr [] →
       mailed (main urljoin cfg w)
       = if Str.truthy (default "" (SENDGRID_API_KEY cfg))
         then [no_jobs_html] else []).
Proof.
  assert (Hreport : ∀ cfg sg,
             mailed (report cfg sg [])
             = if Str.truthy (default "" (SENDGRID_API_KEY cfg))
               then [no_jobs_html] else []).
  { intros cfg sg.
    destruct (Str.truthy (default "" (SENDGRID_API_KEY cfg))) eqn:Hk.
    - by rewrite report_mailed.
    - apply Run.quiet_mailed. by apply report_no_key. }
  split; [reflexivity|]. split; [reflexivity|]. split; [exact Hreport|].
  intros cfg w Hall.
  rewrite (Run.main_mailed urljoin cfg w [] Hall). apply Hreport.
Qed.

(** The rows of a table, one after the other. *)
Lemma build_html_table_two (a b : job) :
  build_html_table [a; b]
  = table_head +:+ (html_row a +:+ html_row b) +:+ table_foot.
Proof. reflexivity. Qed.

Lemma dedupe_two_one (a b c : job) :
  job_key a ≠ job_key b →
  job_key c = job_key a ∨ job_key c = job_key b →
  dedupe_jobs ([a; b] ++ [] ++ [c]) = [a; b].
Proof.
  intros Hab Hc. rewrite Dedupe.dedupe_jobs_from. simpl.
  rewrite decide_False by set_solver.
  rewrite decide_False by set_solver.
  rewrite decide_True by set_solver. done.
Qed.

(** A job with a link that is not blank has the trimmed link as its key. *)
Lemma job_key_link (j : job) :
  Str.truthy (Str.strip (default "" (link j))) = true →
  job_key j = Str.strip (default "" (link j)).
Proof.
  intros H. unfold job_key, Str.or_else.
  by rewrite get_or_else_empty, H.
Qed.

(** C8. The first source returns two jobs [a] and [b] with different keys,
    the second returns nothing, the third returns one job [c] whose link,
    which is not blank, is the link of [a] or of [b].  Then the one mail of
    the run holds the table of [a] and [b]: the head, two rows, the foot. *)
Theorem end_to_end_two_rows (urljoin : string → string → string)
    (cfg : config) (w : world) (a b c : job) :
  Str.truthy (default "" (SENDGRID_API_KEY cfg)) = true →
  outcome (fetch_remotive (remotive w)) = inr [a; b] →
  outcome (fetch_topstartups urljoin (topstartups w)) = inr [] →
  outcome (fetch_wellfound urljoin (wellfound w)) = inr [c] →
  job_key a ≠ job_key b →
  Str.truthy (Str.strip (default "" (link c))) = true →
  link c = link a ∨ link c = link b →
  mailed (main urljoin cfg w) = [build_html_table [a; b]]
  ∧ build_html_table [a; b]
    = table_head +:+ (html_row a +:+ html_row b) +:+ table_foot
  ∧ length (dedupe_jobs ([a; b] ++ [] ++ [c])) = 2.
Proof.
  intros Hk H1 H2 H3 Hab Hc Hdup.
  assert (Hkey : job_key c = job_key a ∨ job_key c = job_key b).
  { destruct Hdup as [Hl|Hl]; [left|right];
      rewrite (job_key_link c Hc), job_key_link; rewrite <- ?Hl; done. }
  pose proof (dedupe_two_one a b c Hab Hkey) as Hd.
  split; [|split; [reflexivity | by rewrite Hd]].
  rewrite (Run.main_mailed urljoin cfg w _
             (Run.collect_outcome urljoin w _ _ _ H1 H2 H3)).
  rewrite report_mailed by done. by rewrite Hd.
Qed.

Lemma end_to_end_two_rows_witness :
  mailed (main demo_urljoin demo_config demo_world)
  = [build_html_table
       [remotive_job "Senior Data Analyst" (Some "Acme") None
          (Some "https://x/1");
        remotive_job "Data Analyst II" (Some "Bolt") (Some "EU")
          (Some "https://x/2")]]
  ∧ body_rows
      (build_html_table
         [remotive_job "Senior Data Analyst" (Some "Acme") None
            (Some "https://x/1");
          remotive_job "Data Analyst II" (Some "Bolt") (Some "EU")
            (Some "https://x/2")]) = 2.
Proof.
  split; [|vm_compute; reflexivity].
  apply (end_to_end_two_rows demo_urljoin demo_config demo_world
           (remotive_job "Senior Data Analyst" (Some "Acme") None
              (Some "https://x/1"))
           (remotive_job "Data Analyst II" (Some "Bolt") (Some "EU")
              (Some "https://x/2"))
           (wellfound_job "Data Analyst" "https://x/1")).
  - vm_compute; reflexivity.
  - vm_compute; reflexivity.
  - vm_compute; reflexivity.
  - vm_compute; reflexivity.
  - vm_compute; discriminate.
  - vm_compute; reflexivity.
  - left; reflexivity.
Defined.

(** C9. The table of the one job Acme has one body row, placed right
    under the header row Company, Title, Location, Link, Keywords, Skills;
    its cells are, in that order, "Acme", "Data Analyst", "Remote", the
    anchor labeled "Apply" to "https://x/1", "k" and "s". *)
Theorem render_single_job :
  build_html_table [acme_job]
  = table_head
    +:+ "<tr><td>Acme</td><td>Data Analyst</td><td>Remote</td><td><a href='https://x/1'>Apply</a></td><td>k</td><td>s</td></tr>"
    +:+ table_foot
  ∧ body_rows (build_html_table [acme_job]) = 1
  ∧ Str.count "<tr>" (build_html_table [acme_job]) = 2
  ∧ Str.contains
      "<thead><tr><th>Company</th><th>Title</th><th>Location</th><th>Link</th><th>Keywords</th><th>Skills</th></tr></thead><tbody><tr><td>Acme</td>"
      (build_html_table [acme_job]) = true
  ∧ Str.contains "</tr></tbody></table>" (build_html_table [acme_job]) = true.
Proof. repeat split; vm_compute; reflexivity. Qed.

(** The table has one row per job, in the order of the list. *)
Lemma build_html_table_rows (jobs : list job) :
  build_html_table jobs
  = table_head
    +:+ foldr (fun j rows => html_row j +:+ rows) "" jobs
    +:+ table_foot.
Proof.
  unfold build_html_table. do 2 f_equal.
  induction jobs as [|j rest IH]; [done|].
  simpl. rewrite Run.html_rows_app. by rewrite IH.
Qed.

(** A whole run: the second source is down, the third repeats a link of
    the first, the mail holds the two jobs of the first. *)
Example main_demo_run :
  main demo_urljoin demo_config demo_world
  = ([ev_get "https://remotive.com/api/remote-jobs"
        [("search", "data analyst")] 15 HEADERS;
      ev_sleep 1;
      ev_get "https://topstartups.io/jobs/?role=Data+Analyst" [] 15 HEADERS;
      ev_print_error "TopStartups error:" ConnectionError;
      ev_sleep 1;
      ev_get "https://wellfound.com/role/r/data-analyst" [] 15 HEADERS;
      ev_mail "Tanko8668@gmail.com" "Tanko8668@gmail.com"
        "Daily Remote Data Analyst Jobs"
        (build_html_table
           [remotive_job "Senior Data Analyst" (Some "Acme") None
              (Some "https://x/1");
            remotive_job "Data Analyst II" (Some "Bolt") (Some "EU")
              (Some "https://x/2")]);
      ev_send "SG.key";
      ev_print_status "Email sent, status:" 202],
     inr tt).
Proof. vm_compute. reflexivity. Qed.

(** Three postings and two repeats: the second Acme link differs only by
    blanks, the two jobs without a link share company and title. *)
Example dedupe_jobs_demo :
  dedupe_jobs
    [acme_job;
     Job (Some "-") (Some "Analyst, Data") (Some "Remote") None None None;
     Job (Some "Acme") (Some "Data Analyst (repost)") None
         (Some "  https://x/1 ") None None;
     Job (Some "Bolt") (Some "Data Analyst II") None (Some "https://x/2")
         None None;
     Job (Some "-") (Some "Analyst, Data") (Some "EU") (Some "") None None]
  = [acme_job;
     Job (Some "-") (Some "Analyst, Data") (Some "Remote") None None None;
     Job (Some "Bolt") (Some "Data Analyst II") None (Some "https://x/2")
         None None].
Proof. vm_compute. reflexivity. Qed.

(** * Further properties *)

(** ** dedupe_jobs across sources *)

(** X1. Jobs of an earlier source win.  The result for [l1 ++ l2] starts
    with the result for [l1] alone; what follows are jobs of [l2] whose
    keys do not occur in [l1]. *)
Theorem dedupe_jobs_app (l1 l2 : list job) :
  dedupe_jobs (l1 ++ l2) = dedupe_jobs l1 ++ dedupe_from (keys l1) l2
  ∧ dedupe_jobs l1 `prefix_of` dedupe_jobs (l1 ++ l2)
  ∧ Forall (fun j => j ∈ l2 ∧ job_key j ∉ job_key <$> l1)
           (dedupe_from (keys l1) l2).
Proof.
  assert (Heq : dedupe_jobs (l1 ++ l2)
                = dedupe_jobs l1 ++ dedupe_from (keys l1) l2).
  { rewrite !Dedupe.dedupe_jobs_from, Dedupe.from_app.
    by rewrite (right_id_L ∅ (∪)). }
  split; [exact Heq|]. split.
  - rewrite Heq. by eexists.
  - apply Forall_forall. intros j [Hk Hin]%Dedupe.from_fresh.
    split; [done|]. by rewrite <- Dedupe.elem_of_keys.
Qed.

(** X2. [dedupe_jobs] never grows a list and never empties one: the first
    job is always kept.  It returns its input unchanged exactly when the
    keys of the input are pairwise distinct. *)
Theorem dedupe_jobs_size (jobs : list job) :
  length (dedupe_jobs jobs) ≤ length jobs
  ∧ head (dedupe_jobs jobs) = head jobs
  ∧ (dedupe_jobs jobs = [] ↔ jobs = [])
  ∧ (dedupe_jobs jobs = jobs ↔ NoDup (job_key <$> jobs)).
Proof.
  split; [|split; [|split]].
  - rewrite Dedupe.dedupe_jobs_from.
    apply sublist_length, Dedupe.from_sublist.
  - rewrite Dedupe.dedupe_jobs_from. destruct jobs as [|j rest]; [done|].
    simpl. by rewrite decide_False by apply not_elem_of_empty.
  - rewrite Dedupe.dedupe_jobs_from. destruct jobs as [|j rest]; [done|].
    simpl. by rewrite decide_False by apply not_elem_of_empty.
  - split.
    + intros Heq. rewrite <- Heq. apply Dedupe.dedupe_NoDup.
    + intros Hnd. rewrite Dedupe.dedupe_jobs_from.
      apply Dedupe.from_fixed; [done|]. intros j _. apply not_elem_of_empty.
Qed.

(** ** White space around a link *)

Module StripFacts.
Import Str.

Lemma rstrip_blank (ws : string) : is_blank ws = true → rstrip ws = "".
Proof.
  induction ws as [|c ws IH]; simpl; [done|].
  intros [Hc Hws]%andb_prop. by rewrite IH, Hc.
Qed.

Lemma lstrip_blank_app (ws s : string) :
  is_blank ws = true → lstrip (ws +:+ s) = lstrip s.
Proof.
  induction ws as [|c ws IH]; simpl; [done|].
  intros [Hc Hws]%andb_prop. rewrite Hc. by apply IH.
Qed.

Lemma rstrip_app_blank (s ws : string) :
  is_blank ws = true → rstrip (s +:+ ws) = rstrip s.
Proof.
  intros Hws. induction s as [|c s IH]; simpl.
  - by apply rstrip_blank.
  - by rewrite IH.
Qed.

Lemma lstrip_app (s t : string) :
  lstrip (s +:+ t) = if truthy (lstrip s) then lstrip s +:+ t else lstrip t.
Proof.
  induction s as [|c s IH]; simpl; [done|].
  by destruct (is_space c).
Qed.

Lemma truthy_lstrip (s : string) : truthy (lstrip s) = negb (is_blank s).
Proof.
  induction s as [|c s IH]; simpl; [done|].
  by destruct (is_space c).
Qed.

(** What [lstrip] leaves does not start with white space. *)
Lemma lstrip_head (s : string) :
  match lstrip s with
  | EmptyString => True
  | String c _ => is_space c = false
  end.
Proof.
  induction s as [|c s IH]; simpl; [done|].
  by destruct (is_space c) eqn:Hc.
Qed.

Lemma truthy_strip (s : string) : truthy (strip s) = negb (is_blank s).
Proof.
  unfold strip. rewrite <- truthy_lstrip.
  pose proof (lstrip_head s) as Hh.
  destruct (lstrip s) as [|c t]; [done|].
  simpl. rewrite Hh. by rewrite andb_false_r.
Qed.

(** White space on either side of a string does not change its trimmed
    form. *)
Lemma strip_pad (ws1 s ws2 : string) :
  is_blank ws1 = true → is_blank ws2 = true →
  strip (ws1 +:+ s +:+ ws2) = strip s.
Proof.
  intros H1 H2. unfold strip.
  rewrite lstrip_blank_app by done. rewrite lstrip_app.
  destruct (truthy (lstrip s)) eqn:Hs.
  - by apply rstrip_app_blank.
  - apply StrFacts.truthy_false in Hs. rewrite Hs.
    assert (Hl : truthy (lstrip ws2) = false)
      by (by rewrite truthy_lstrip, H2).
    apply StrFacts.truthy_false in Hl. by rewrite Hl.
Qed.

Lemma truthy_app_cons (a : string) (c : ascii) (b : string) :
  truthy (a +:+ String c b) = true.
Proof. by destruct a. Qed.

End StripFacts.

(** X3. The key of a job is never the empty string.  It is the trimmed
    link unless the link is missing, empty or white space only; then it is
    the company, a bar and the title, each empty when missing. *)
Theorem job_key_cases (j : job) :
  Str.truthy (job_key j) = true
  ∧ job_key j
    = if is_blank (default "" (link j))
      then default "" (company j) +:+ "|" +:+ default "" (title j)
      else Str.strip (default "" (link j)).
Proof.
  unfold job_key, Str.or_else, get_or. rewrite get_or_else_empty.
  pose proof (StripFacts.truthy_strip (default "" (link j))) as Hs.
  destruct (is_blank (default "" (link j))); simpl in Hs; rewrite Hs.
  - split; [apply StripFacts.truthy_app_cons | done].
  - by rewrite Hs.
Qed.

(** X4. Two jobs whose links differ only by white space around them are
    the same posting for [dedupe_jobs], whatever their other fields: the
    second is dropped. *)
Theorem dedupe_jobs_padded_link (j1 j2 : job) (l ws1 ws2 : string) :
  link j1 = Some l →
  link j2 = Some (ws1 +:+ l +:+ ws2) →
  is_blank ws1 = true → is_blank ws2 = true → is_blank l = false →
  job_key j1 = Str.strip l
  ∧ job_key j2 = job_key j1
  ∧ dedupe_jobs [j1; j2] = [j1].
Proof.
  intros H1 H2 Hw1 Hw2 Hl.
  assert (Hk1 : job_key j1 = Str.strip l).
  { rewrite job_key_link; rewrite H1; simpl; [done|].
    by rewrite StripFacts.truthy_strip, Hl. }
  assert (Hk2 : job_key j2 = job_key j1).
  { rewrite Hk1. rewrite job_key_link; rewrite H2; simpl;
      rewrite StripFacts.strip_pad by done; [done|].
    by rewrite StripFacts.truthy_strip, Hl. }
  split; [done|]. split; [done|].
  rewrite Dedupe.dedupe_jobs_from. simpl.
  rewrite decide_False by apply not_elem_of_empty.
  rewrite decide_True; [done|]. rewrite Hk2. set_solver.
Qed.

Lemma dedupe_jobs_padded_link_witness :
  job_key acme_job = Str.strip "https://x/1"
  ∧ job_key (wellfound_job "Data Analyst"
               (" " +:+ "https://x/1" +:+ String "010" ""))
    = job_key acme_job
  ∧ dedupe_jobs
      [acme_job;
       wellfound_job "Data Analyst"
         (" " +:+ "https://x/1" +:+ String "010" "")]
    = [acme_job].
Proof.
  apply (dedupe_jobs_padded_link acme_job
           (wellfound_job "Data Analyst"
              (" " +:+ "https://x/1" +:+ String "010" ""))
           "https://x/1" " " (String "010" "")).
  - reflexivity.
  - reflexivity.
  - vm_compute; reflexivity.
  - vm_compute; reflexivity.
  - vm_compute; reflexivity.
Defined.

(** ** What a fetcher logs *)

Module FetchLog.

Lemma remotive_loop_cases (jobs : list job) (data : list listing) :
  remotive_loop jobs data
  = ([], match first_invalid data with
         | Some e => inl e
         | None => inr (jobs ++ omap listing_job data)
         end).
Proof.
  revert jobs. induction data as [|[e|t c l u] rest IH]; intros jobs; simpl.
  - by rewrite app_nil_r.
  - done.
  - destruct (remotive_match _); rewrite IH; [|done].
    destruct (first_invalid rest); [done|]. by rewrite <- app_assoc.
Qed.

Lemma first_invalid_app (pre post : list listing) (e : exn) :
  existsb is_invalid pre = false →
  first_invalid (pre ++ listing_invalid e :: post) = Some e.
Proof.
  induction pre as [|[e'|t c l u] pre IH]; simpl; [done|done|exact IH].
Qed.

(** The whole of a fetcher: the request, then one line on an error. *)
Lemma guarded_body {B} (url label : string)
    (params : list (string * string)) (r : http_result (exn + B))
    (k : B → list job) :
  try_except
    (resp <- requests_get url params r;;
     raise_for_status resp.1;;;
     x <- lift resp.2;;
     ret (k x))
    (fun e => emit (ev_print_error label e);;; ret [])
  = (ev_get url params 15 HEADERS
     :: match response_error r with
        | Some e => [ev_print_error label e]
        | None => []
        end,
     inr match r with
         | http_response status_code (inr x) =>
             if is_error_status status_code then [] else k x
         | _ => []
         end).
Proof.
  destruct r as [e|status_code [e|x]]; try reflexivity;
    unfold try_except, bind, requests_get, raise_for_status, response_error;
    simpl; destruct (is_error_status status_code); reflexivity.
Qed.

End FetchLog.

(** X5. A scraper sends one request, with the timeout of 15 and the
    User-Agent header.  When nothing fails it logs nothing more and returns
    the jobs of the page; when the request, the status check or the parse
    raises, in that order of precedence, it logs one line with its own
    label and that exception, and returns the empty list. *)
Theorem scraper_log (urljoin : string → string → string) (r : page_response) :
  fetch_topstartups urljoin r
  = (ev_get "https://topstartups.io/jobs/?role=Data+Analyst" [] 15
       [("User-Agent", USER_AGENT)]
     :: match response_error r with
        | Some e => [ev_print_error "TopStartups error:" e]
        | None => []
        end,
     inr match r, response_error r with
         | http_response _ (inr anchors), None =>
             topstartups_loop urljoin [] anchors
         | _, _ => []
         end)
  ∧ fetch_wellfound urljoin r
    = (ev_get "https://wellfound.com/role/r/data-analyst" [] 15
         [("User-Agent", USER_AGENT)]
       :: match response_error r with
          | Some e =>
              [ev_print_error "Wellfound error (page may be JS-driven):" e]
          | None => []
          end,
       inr match r, response_error r with
           | http_response _ (inr anchors), None =>
               wellfound_loop urljoin "https://wellfound.com" [] anchors
           | _, _ => []
           end).
Proof.
  unfold fetch_topstartups, fetch_wellfound.
  rewrite (FetchLog.guarded_body _ _ _ r (topstartups_loop urljoin [])).
  rewrite (FetchLog.guarded_body _ _ _ r
             (wellfound_loop urljoin "https://wellfound.com" [])).
  destruct r as [e|status_code [e|anchors]]; simpl; try done;
    by destruct (is_error_status status_code).
Qed.

(** X6. [fetch_remotive] is all or nothing.  When the response is good up
    to an element of the list that cannot be read, the jobs collected from
    the elements before it are lost: the result is the empty list, and the
    one line logged carries the exception of that element. *)
Theorem fetch_remotive_all_or_nothing (status_code : Z)
    (pre post : list listing) (e : exn) :
  is_error_status status_code = false →
  existsb is_invalid pre = false →
  fetch_remotive
    (http_response status_code (inr (pre ++ listing_invalid e :: post)))
  = ([ev_get "https://remotive.com/api/remote-jobs"
        [("search", "data analyst")] 15 [("User-Agent", USER_AGENT)];
      ev_print_error "Remotive error:" e],
     inr [])
  ∧ fetch_remotive (http_response status_code (inr pre))
    = ([ev_get "https://remotive.com/api/remote-jobs"
          [("search", "data analyst")] 15 [("User-Agent", USER_AGENT)]],
       inr (omap listing_job pre)).
Proof.
  intros Hs Hpre. unfold fetch_remotive, try_except, bind, requests_get,
    raise_for_status. simpl. rewrite Hs. simpl.
  rewrite !FetchLog.remotive_loop_cases.
  rewrite (FetchLog.first_invalid_app pre post e Hpre). simpl.
  split; [done|].
  assert (Hnone : first_invalid pre = None).
  { clear -Hpre. induction pre as [|[e'|t c l u] pre IH]; simpl in *;
      [done | done | by apply IH]. }
  by rewrite Hnone.
Qed.

Lemma fetch_remotive_all_or_nothing_witness :
  fetch_remotive
    (http_response 200
       (inr ([listing_object (Some "Senior Data Analyst") (Some "Acme")
                None (Some "https://x/1")]
             ++ listing_invalid AttributeError
             :: [listing_object (Some "Data Analyst II") None None None])))
  = ([ev_get "https://remotive.com/api/remote-jobs"
        [("search", "data analyst")] 15 [("User-Agent", USER_AGENT)];
      ev_print_error "Remotive error:" AttributeError],
     inr [])
  ∧ fetch_remotive
      (http_response 200
         (inr [listing_object (Some "Senior Data Analyst") (Some "Acme")
                 None (Some "https://x/1")]))
    = ([ev_get "https://remotive.com/api/remote-jobs"
          [("search", "data analyst")] 15 [("User-Agent", USER_AGENT)]],
       inr (omap listing_job
              [listing_object (Some "Senior Data Analyst") (Some "Acme")
                 None (Some "https://x/1")])).
Proof.
  apply (fetch_remotive_all_or_nothing 200
           [listing_object (Some "Senior Data Analyst") (Some "Acme")
              None (Some "https://x/1")]
           [listing_object (Some "Data Analyst II") None None None]
           AttributeError); reflexivity.
Defined.

(** ** What a fetched job looks like *)

Lemma Forall_map_filter {A B} (P : B → Prop) (f : A → B) (p : A → bool)
    (l : list A) :
  (∀ a, p a = true → P (f a)) → Forall P (map f (List.filter p l)).
Proof.
  intros H. induction l as [|a l IH]; simpl; [constructor|].
  destruct (p a) eqn:Hp; [|exact IH]. constructor; [by apply H | exact IH].
Qed.

Lemma Forall_omap {A B} (P : B → Prop) (f : A → option B) (l : list A) :
  (∀ a b, f a = Some b → P b) → Forall P (omap f l).
Proof.
  intros H. induction l as [|a l IH]; simpl; [constructor|].
  destruct (f a) as [b|] eqn:Hf; [|exact IH].
  constructor; [by apply (H a) | exact IH].
Qed.

Lemma rule_truthy (txt : string) :
  Str.contains "analyst" (Str.lower txt) = true → Str.truthy txt = true.
Proof. by destruct txt. Qed.

(** X7. Every job [fetch_remotive] returns has a title that passes the
    rule, so a title that is not empty and holds "data" and "analyst" in
    some case; a company and a location that are not empty ("-" and
    "Remote" stand in for a missing or empty one); and the two fixed tag
    strings.  Only the link may be missing. *)
Theorem fetch_remotive_jobs (r : remotive_response) :
  ∃ jobs,
    outcome (fetch_remotive r) = inr jobs
    ∧ Forall
        (fun j =>
           ∃ t c l,
             title j = Some t ∧ company j = Some c ∧ location j = Some l
             ∧ Str.truthy t = true ∧ Str.truthy c = true
             ∧ Str.truthy l = true
             ∧ Str.contains "data" (Str.lower t) = true
             ∧ Str.contains "analyst" (Str.lower t) = true
             ∧ keywords j
               = Some "analysis; reporting; dashboards; metrics; data"
             ∧ skills j = Some "Python; SQL; Excel; BI tools; statistics")
        jobs.
Proof.
  eexists. split; [apply Fetch.fetch_remotive_outcome|].
  destruct r as [e|status_code [e|data]]; try constructor.
  destruct (is_error_status status_code || existsb is_invalid data);
    [constructor|].
  apply Forall_omap. intros [e|t c l u] j; simpl; [done|].
  destruct (remotive_match (get_or t "")) eqn:Hm; [|done].
  intros [= <-]. exists (get_or t ""), (get_or_else c "-"),
    (get_or_else l "Remote").
  change (remotive_match (get_or t "")) with (data_analyst_rule (get_or t ""))
    in Hm.
  apply rule_both in Hm as [Hd Ha].
  apply StrFacts.contains_spec in Hd, Ha.
  repeat split; try done.
  - by apply rule_truthy.
  - unfold get_or_else, Str.or_else. by destruct c as [[|x c]|].
  - unfold get_or_else, Str.or_else. by destruct l as [[|x l]|].
Qed.

(** X8. Every job a scraper returns comes from an anchor with a text and
    an href: its title is that text, which is not empty and holds
    "analyst" in some case, its link is present and is the resolved href,
    its company is "-" and its location "Remote".  A title from
    [fetch_topstartups] is shorter than 200 characters; a title from
    [fetch_wellfound] also holds "data". *)
Theorem scraper_jobs (urljoin : string → string → string)
    (r : page_response) :
  (∃ jobs,
     outcome (fetch_topstartups urljoin r) = inr jobs
     ∧ Forall
         (fun j =>
            ∃ txt href,
              title j = Some txt
              ∧ link j = Some (full_link urljoin "https://topstartups.io" href)
              ∧ company j = Some "-" ∧ location j = Some "Remote"
              ∧ Str.truthy txt = true ∧ Str.truthy href = true
              ∧ Str.contains "analyst" (Str.lower txt) = true
              ∧ (Str.len txt < 200)%Z)
         jobs)
  ∧ (∃ jobs,
       outcome (fetch_wellfound urljoin r) = inr jobs
       ∧ Forall
           (fun j =>
              ∃ txt href,
                title j = Some txt
                ∧ link j = Some (full_link urljoin "https://wellfound.com" href)
                ∧ company j = Some "-" ∧ location j = Some "Remote"
                ∧ Str.truthy txt = true ∧ Str.truthy href = true
                ∧ Str.contains "analyst" (Str.lower txt) = true
                ∧ Str.contains "data" (Str.lower txt) = true)
           jobs).
Proof.
  split; eexists.
  - split; [apply Fetch.fetch_topstartups_outcome|].
    destruct r as [e|status_code [e|anchors]]; try constructor.
    destruct (is_error_status status_code); [constructor|].
    apply Forall_map_filter. intros a. unfold topstartups_accepts.
    intros [Hne Hm]%andb_prop. exists (a_text a), (a_href a).
    apply negb_true_iff, orb_false_elim in Hne as [Hh Ht].
    apply negb_false_iff in Hh, Ht.
    apply andb_prop in Hm as [Ha Hlen]. apply Z.ltb_lt in Hlen.
    by repeat split.
  - split; [apply Fetch.fetch_wellfound_outcome|].
    destruct r as [e|status_code [e|anchors]]; try constructor.
    destruct (is_error_status status_code); [constructor|].
    apply Forall_map_filter. intros a. unfold wellfound_accepts.
    intros [Hne Hm]%andb_prop. exists (a_text a), (a_href a).
    apply negb_true_iff, orb_false_elim in Hne as [Hh Ht].
    apply negb_false_iff in Hh, Ht.
    change (wellfound_match (a_text a)) with (data_analyst_rule (a_text a))
      in Hm.
    apply rule_both in Hm as [Hd Ha].
    apply StrFacts.contains_spec in Hd, Ha.
    by repeat split.
Qed.

(** ** Rows of the table *)

Module Rows.
Import Str.

Lemma count_unfold (n h : string) :
  count n h
  = (if String.prefix n h then 1 else 0)
    + match h with
      | EmptyString => 0
      | String _ t => count n t
      end.
Proof. by destruct h. Qed.

(** Text put before a string takes no occurrence away. *)
Lemma count_app_le (n x t : string) : count n t ≤ count n (x +:+ t).
Proof.
  induction x as [|c x IH]; [done|].
  change (String c x +:+ t) with (String c (x +:+ t)).
  rewrite (count_unfold n (String c (x +:+ t))). lia.
Qed.

Lemma prefix_cons_ne (a b : ascii) (s1 s2 : string) :
  a ≠ b → String.prefix (String a s1) (String b s2) = false.
Proof.
  intros Hne. cbn [String.prefix]. by destruct (ascii_dec a b).
Qed.

(** Text without a tag opener holds no row opener. *)
Lemma count_plain (f t : string) :
  no_markup f = true → count "<tr><td>" (f +:+ t) = count "<tr><td>" t.
Proof.
  induction f as [|c f IH]; [done|].
  cbn [no_markup]. intros [Hc Hf]%andb_prop.
  change (String c f +:+ t) with (String c (f +:+ t)).
  rewrite (count_unfold _ (String c (f +:+ t))).
  rewrite IH by done.
  rewrite prefix_cons_ne; [done|].
  intros <-. discriminate Hc.
Qed.

Lemma count_open (t : string) :
  count "<tr><td>" ("<tr>" +:+ "<td>" +:+ t) = S (count "<tr><td>" t).
Proof.
  rewrite count_unfold.
  rewrite (proj2 (StrFacts.prefix_app "<tr><td>" ("<tr>" +:+ "<td>" +:+ t)))
    by (by exists t).
  reflexivity.
Qed.

(** A row of plain fields holds one row opener, its own. *)
Lemma count_row (j : job) (t : string) :
  plain_job j = true →
  count "<tr><td>" (html_row j +:+ t) = S (count "<tr><td>" t).
Proof.
  unfold plain_job. rewrite !andb_true_iff.
  intros [[[[[Hc Ht] Hl] Hk] Hw] Hs].
  unfold html_row. rewrite !StrFacts.app_assoc. rewrite count_open.
  rewrite (count_plain (fmt (company j))) by done.
  change (count "<tr><td>" ("</td>" +:+ "<td>" +:+ ?x))
    with (count "<tr><td>" x).
  rewrite (count_plain (fmt (title j))) by done.
  change (count "<tr><td>" ("</td>" +:+ "<td>" +:+ ?x))
    with (count "<tr><td>" x).
  rewrite (count_plain (fmt (location j))) by done.
  change (count "<tr><td>" ("</td>" +:+ "<td><a href='" +:+ ?x))
    with (count "<tr><td>" x).
  rewrite (count_plain (fmt (link j))) by done.
  change (count "<tr><td>" ("'>Apply</a></td>" +:+ "<td>" +:+ ?x))
    with (count "<tr><td>" x).
  rewrite (count_plain (fmt (keywords j))) by done.
  change (count "<tr><td>" ("</td>" +:+ "<td>" +:+ ?x))
    with (count "<tr><td>" x).
  rewrite (count_plain (fmt (skills j))) by done.
  reflexivity.
Qed.

(** Any row holds at least its own row opener. *)
Lemma count_row_le (j : job) (t : string) :
  S (count "<tr><td>" t) ≤ count "<tr><td>" (html_row j +:+ t).
Proof.
  unfold html_row. rewrite !StrFacts.app_assoc. rewrite count_open.
  apply le_n_S.
  repeat (etrans; [|apply count_app_le]). done.
Qed.

End Rows.

Lemma body_rows_table (jobs : list job) :
  body_rows (build_html_table jobs)
  = Str.count "<tr><td>"
      (foldr (fun j rows => html_row j +:+ rows) "" jobs +:+ table_foot).
Proof. rewrite build_html_table_rows. reflexivity. Qed.

(** X9. The table holds at least one body row per job, and exactly one per
    job when no field holds the character that opens a tag.  Fields are
    written as they are, so a field with markup of its own can add rows. *)
Theorem table_body_rows (jobs : list job) :
  length jobs ≤ body_rows (build_html_table jobs)
  ∧ (forallb plain_job jobs = true →
     body_rows (build_html_table jobs) = length jobs).
Proof.
  rewrite body_rows_table. split.
  - induction jobs as [|j rest IH]; cbn [foldr length]; [lia|].
    rewrite StrFacts.app_assoc.
    etrans; [|apply Rows.count_row_le]. lia.
  - induction jobs as [|j rest IH]; [done|].
    cbn [forallb foldr length]. intros [Hj Hrest]%andb_prop.
    rewrite StrFacts.app_assoc, Rows.count_row by done.
    by rewrite IH.
Qed.

Lemma table_body_rows_witness :
  length [acme_job; wellfound_job "Data Analyst" "https://x/2"]
  ≤ body_rows
      (build_html_table
         [acme_job; wellfound_job "Data Analyst" "https://x/2"])
  ∧ body_rows
      (build_html_table
         [acme_job; wellfound_job "Data Analyst" "https://x/2"])
    = length [acme_job; wellfound_job "Data Analyst" "https://x/2"].
Proof.
  destruct (table_body_rows
              [acme_job; wellfound_job "Data Analyst" "https://x/2"])
    as [Hle Heq].
  split; [exact Hle|]. apply Heq. vm_compute. reflexivity.
Defined.

(** A field with a row opener of its own: one job, two rows counted. *)
Example table_body_rows_markup :
  body_rows
    (build_html_table [wellfound_job "Data <tr><td> Analyst" "https://x/3"])
  = 2.
Proof. vm_compute. reflexivity. Qed.

(** ** A whole run *)

Module Whole.


Lemma schedule_bind {A B} (m : M A) (k : A → M B) :
  schedule (bind m k)
  = schedule m
    ++ match outcome m with inl _ => [] | inr a => schedule (k a) end.
Proof.
  unfold schedule. rewrite Run.bind_events, List.filter_app.
  by destruct (outcome m).
Qed.

Lemma schedule_guarded_body {B} (url label : string)
    (params : list (string * string)) (r : http_result (exn + B))
    (k : B → list job) :
  schedule
    (try_except
       (resp <- requests_get url params r;;
        raise_for_status resp.1;;;
        x <- lift resp.2;;
        ret (k x))
       (fun e => emit (ev_print_error label e);;; ret []))
  = [ev_get url params 15 HEADERS].
Proof.
  rewrite FetchLog.guarded_body. unfold schedule. simpl.
  by destruct (response_error r).
Qed.

Lemma schedule_fetch_remotive (r : remotive_response) :
  schedule (fetch_remotive r)
  = [ev_get "https://remotive.com/api/remote-jobs"
       [("search", "data analyst")] 15 HEADERS].
Proof.
  unfold schedule, fetch_remotive, try_except, bind, requests_get,
    raise_for_status, events.
  destruct r as [e|status_code [e|data]]; simpl.
  - done.
  - by destruct (is_error_status status_code).
  - destruct (is_error_status status_code); simpl; [done|].
    rewrite FetchLog.remotive_loop_cases. simpl.
    by destruct (first_invalid data).
Qed.

Lemma schedule_report (cfg : config) (sg : exn + Z) (jobs : list job) :
  schedule (report cfg sg jobs) = [].
Proof.
  destruct (Str.truthy (default "" (SENDGRID_API_KEY cfg))) eqn:Hk;
    unfold report;
    destruct jobs as [|j rest];
    rewrite ?Run.send_email_key, ?Run.send_email_no_key by done;
    by destruct sg.
Qed.

Section WithUrljoin.
Variable urljoin : string → string → string.

Lemma schedule_collect (w : world) :
  schedule (collect urljoin w)
  = [ev_get "https://remotive.com/api/remote-jobs"
       [("search", "data analyst")] 15 HEADERS;
     ev_sleep 1;
     ev_get "https://topstartups.io/jobs/?role=Data+Analyst" [] 15 HEADERS;
     ev_sleep 1;
     ev_get "https://wellfound.com/role/r/data-analyst" [] 15 HEADERS].
Proof.
  unfold collect.
  rewrite schedule_bind, schedule_fetch_remotive,
    Fetch.fetch_remotive_outcome.
  rewrite schedule_bind. simpl outcome. cbv iota.
  rewrite schedule_bind.
  unfold fetch_topstartups at 1. rewrite schedule_guarded_body.
  rewrite Fetch.fetch_topstartups_outcome.
  rewrite schedule_bind. simpl outcome. cbv iota.
  rewrite schedule_bind.
  unfold fetch_wellfound at 1. rewrite schedule_guarded_body.
  rewrite Fetch.fetch_wellfound_outcome.
  reflexivity.
Qed.

Lemma main_events (cfg : config) (w : world) (all_jobs : list job) :
  outcome (collect urljoin w) = inr all_jobs →
  events (main urljoin cfg w)
  = events (collect urljoin w)
    ++ events (report cfg (sendgrid w) (dedupe_jobs all_jobs)).
Proof. intros H. unfold main. by rewrite Run.bind_events, H. Qed.

End WithUrljoin.

End Whole.





(** X12. Every run sends the same three requests in the same order, one
    second apart, whatever the sources answer and whether or not a key is
    set: a failing source does not stop the next request, and the key is
    looked at only after the third.  The steps of the mail all come after
    the requests. *)
Theorem main_schedule (urljoin : string → string → string)
    (cfg : config) (w : world) :
  schedule (main urljoin cfg w)
  = [ev_get "https://remotive.com/api/remote-jobs"
       [("search", "data analyst")] 15 [("User-Agent", USER_AGENT)];
     ev_sleep 1;
     ev_get "https://topstartups.io/jobs/?role=Data+Analyst" [] 15
       [("User-Agent", USER_AGENT)];
     ev_sleep 1;
     ev_get "https://wellfound.com/role/r/data-analyst" [] 15
       [("User-Agent", USER_AGENT)]]
  ∧ ∃ all_jobs,
      outcome (collect urljoin w) = inr all_jobs
      ∧ events (main urljoin cfg w)
        = events (collect urljoin w)
          ++ events (report cfg (sendgrid w) (dedupe_jobs all_jobs))
      ∧ quiet (collect urljoin w) = true
      ∧ schedule (report cfg (sendgrid w) (dedupe_jobs all_jobs)) = [].
Proof.
  destruct (collect_returns urljoin w) as [all_jobs Hall].
  pose proof (Whole.main_events urljoin cfg w all_jobs Hall) as Hev.
  split.
  - unfold schedule. rewrite Hev, List.filter_app.
    fold (schedule (collect urljoin w)).
    fold (schedule (report cfg (sendgrid w) (dedupe_jobs all_jobs))).
    rewrite Whole.schedule_collect, Whole.schedule_report.
    by rewrite app_nil_r.
  - exists all_jobs. split; [done|]. split; [done|].
    split; [apply Run.quiet_collect | apply Whole.schedule_report].
Qed.



(** X14. A Remotive listing without a url whose title passes the rule is
    still emitted.  Its job has no link: [dedupe_jobs] identifies it by its
    company, "-" when there is none, a bar and its title, and the table
    writes the missing link as the text None, so the row holds an anchor
    to 'None'. *)
Theorem remotive_missing_url (t : string) (c l : option string) :
  data_analyst_rule t = true →
  outcome (fetch_remotive
             (http_response 200 (inr [listing_object (Some t) c l None])))
  = inr [remotive_job t c l None]
  ∧ job_key (remotive_job t c l None) = get_or_else c "-" +:+ "|" +:+ t
  ∧ Str.Substring "<td><a href='None'>Apply</a></td>"
      (build_html_table [remotive_job t c l None]).
Proof.
  intros Hrule. split; [|split].
  - rewrite Fetch.fetch_remotive_outcome. simpl.
    change (remotive_match t) with (data_analyst_rule t). by rewrite Hrule.
  - reflexivity.
  - exists (table_head +:+ "<tr>" +:+ "<td>" +:+ get_or_else c "-"
            +:+ "</td>" +:+ "<td>" +:+ t +:+ "</td>"
            +:+ "<td>" +:+ get_or_else l "Remote" +:+ "</td>"),
      ("<td>analysis; reporting; dashboards; metrics; data</td>"
       +:+ "<td>Python; SQL; Excel; BI tools; statistics</td>"
       +:+ "</tr>" +:+ table_foot).
    unfold build_html_table, html_rows, html_row, fmt, remotive_job.
    cbn [company title location link keywords skills default].
    rewrite !StrFacts.app_assoc. reflexivity.
Qed.

Lemma remotive_missing_url_witness :
  outcome (fetch_remotive
             (http_response 200
                (inr [listing_object (Some "Data Analyst") None None None])))
  = inr [remotive_job "Data Analyst" None None None]
  ∧ job_key (remotive_job "Data Analyst" None None None)
    = get_or_else None "-" +:+ "|" +:+ "Data Analyst"
  ∧ Str.Substring "<td><a href='None'>Apply</a></td>"
      (build_html_table [remotive_job "Data Analyst" None None None]).
Proof.
  apply (remotive_missing_url "Data Analyst" None None).
  vm_compute; reflexivity.
Defined.
